(** * TCNopen TRDP: the Windows thread, time, mutex and semaphore layer

    A shallow embedding of [src/trdp/src/vos/windows/vos_winThread.c] and
    the properties of its operations.

    The file is compiled for WIN64 only (it starts with an [#error] guard),
    so the data model is LLP64: [int], [long], [UINT32] and [DWORD] are 32
    bits wide, [UINT16] is 16 bits and [UINT8] is 8 bits.  Integers are
    kept in [Z] and every conversion of the C code is written out. *)

From Stdlib Require Import ZArith List Lia Bool.
From stdpp Require Import gmap strings list.
From Equations Require Import Equations.

Local Open Scope Z_scope.

(** ** Machine integers *)

Module CInt.

(** The value of [z] in an unsigned integer type of [2^32] values
    ([UINT32], [DWORD], [unsigned long]). *)
Definition ulong (z : Z) : Z := z mod 4294967296.

(** The value of [z] in [long] (32 bits, two's complement).  Conversions
    of an out-of-range value to [long] and overflowing [long] arithmetic
    both wrap around, which is what the target compiler produces. *)
Definition long (z : Z) : Z := (z + 2147483648) mod 4294967296 - 2147483648.

Definition uint16 (z : Z) : Z := z mod 65536.
Definition uint8 (z : Z) : Z := z mod 256.

Definition in_long (z : Z) : Prop := -2147483648 <= z <= 2147483647.
Definition in_ulong (z : Z) : Prop := 0 <= z < 4294967296.
Definition in_uint16 (z : Z) : Prop := 0 <= z < 65536.

End CInt.
Import CInt.

(** ** Time values *)

(** [VOS_TIMEVAL_T] is declared in [vos_types.h], outside this file.  On
    the only platform this file compiles for it is winsock's
    [struct timeval], two [long] fields: the code converts [tv_usec] with
    [(UINT32)], flags its divisions by a [UINT32] as mixing signed and
    unsigned, and reasons about a 32 bit value next to
    [MAXSEC_FOR_USECPRESENTATION]. *)
Record VOS_TIMEVAL_T : Type := mkTimeval { tv_sec : Z; tv_usec : Z }.

(** Both fields hold a [long]. *)
Definition timeval_wf (t : VOS_TIMEVAL_T) : Prop :=
  in_long (tv_sec t) /\ in_long (tv_usec t).

(** The microsecond field is normalized. *)
Definition usec_normalized (t : VOS_TIMEVAL_T) : Prop :=
  0 <= tv_usec t < 1000000.

Definition timeval_valid (t : VOS_TIMEVAL_T) : Prop :=
  in_long (tv_sec t) /\ usec_normalized t.

Module TimeOps.

(** The loop shared by [vos_addTime] and [vos_mulTime]:
    [while (pTime->tv_usec >= 1000000) { pTime->tv_sec++; pTime->tv_usec -= 1000000; }] *)
Equations? carry_loop (sec usec : Z) : VOS_TIMEVAL_T
  by wf (Z.to_nat (usec / 1000000)) lt :=
  carry_loop sec usec with Z_le_gt_dec 1000000 usec := {
    | left _ => carry_loop (long (sec + 1)) (long (usec - 1000000))
    | right _ => mkTimeval sec usec }.
Proof.
  assert (long (usec - 1000000) <= usec - 1000000).
  { unfold long. pose proof (Z.mod_le (usec - 1000000 + 2147483648) 4294967296). lia. }
  assert (long (usec - 1000000) / 1000000 < usec / 1000000).
  { apply Z.div_lt_upper_bound; [lia|].
    pose proof (Z.div_mod usec 1000000). pose proof (Z.mod_pos_bound usec 1000000).
    lia. }
  assert (0 < usec / 1000000) by (apply Z.div_str_pos; lia).
  lia.
Qed.

(** [vos_addTime], both pointers valid. *)
Definition addTime (t a : VOS_TIMEVAL_T) : VOS_TIMEVAL_T :=
  let sec := long (tv_sec t + tv_sec a) in
  let usec := long (tv_usec t + tv_usec a) in
  carry_loop sec usec.

(** [vos_subTime], both pointers valid. *)
Definition subTime (t s : VOS_TIMEVAL_T) : VOS_TIMEVAL_T :=
  let '(sec, usec) :=
    if tv_usec s >? tv_usec t
    then (long (tv_sec t - 1), long (tv_usec t + 1000000))
    else (tv_sec t, tv_usec t) in
  let usec := long (usec - tv_usec s) in
  let sec := long (sec - tv_sec s) in
  mkTimeval sec usec.

(** [vos_divTime], pointer valid and [divisor] not 0.  A [long] operand
    meeting a [UINT32] one is converted to [unsigned long] first; the
    operands of [/] and [%] are then not negative, where C and [Z]
    agree on both operators. *)
Definition divTime (t : VOS_TIMEVAL_T) (divisor : Z) : VOS_TIMEVAL_T :=
  let temp := ulong (tv_sec t) mod divisor in
  let sec := long (ulong (tv_sec t) / divisor) in
  let usec :=
    if temp >? 0
    then long (ulong (ulong (tv_usec t) + ulong (temp * 1000000)))
    else tv_usec t in
  let usec := long (ulong usec / divisor) in
  mkTimeval sec usec.

(** [vos_mulTime], pointer valid. *)
Definition mulTime (t : VOS_TIMEVAL_T) (mul : Z) : VOS_TIMEVAL_T :=
  let sec := long (ulong (ulong (tv_sec t) * mul)) in
  let usec := long (ulong (ulong (tv_usec t) * mul)) in
  carry_loop sec usec.

(** Modelled from the spec: the macros [timercmp] and [timerclear] come
    from the platform headers, not from this repository; the spec gives
    their meaning, a lexicographic comparison of (seconds, microseconds)
    and a reset to (0, 0). *)
Definition timercmp_gt (t u : VOS_TIMEVAL_T) : bool :=
  (tv_sec t >? tv_sec u) || ((tv_sec t =? tv_sec u) && (tv_usec t >? tv_usec u)).

(** Modelled from the spec: [timercmp] with [<], as above. *)
Definition timercmp_lt (t u : VOS_TIMEVAL_T) : bool :=
  (tv_sec t <? tv_sec u) || ((tv_sec t =? tv_sec u) && (tv_usec t <? tv_usec u)).

(** Modelled from the spec: [timerclear], the reset to (0, 0). *)
Definition timerclear : VOS_TIMEVAL_T := mkTimeval 0 0.

(** [vos_cmpTime], both pointers valid. *)
Definition cmpTime (t c : VOS_TIMEVAL_T) : Z :=
  if timercmp_gt t c then 1
  else if timercmp_lt t c then -1
  else 0.

End TimeOps.

(** ** Programs: logging, native calls and faults *)

Inductive VOS_ERR_T : Type :=
| VOS_NO_ERR | VOS_PARAM_ERR | VOS_INIT_ERR | VOS_NOINIT_ERR | VOS_THREAD_ERR
| VOS_MEM_ERR | VOS_MUTEX_ERR | VOS_SEMA_ERR | VOS_INUSE_ERR.

Inductive VOS_LOG_T : Type := VOS_LOG_ERROR | VOS_LOG_WARNING.

Inductive VOS_THREAD_POLICY_T : Type :=
| VOS_THREAD_POLICY_OTHER | VOS_THREAD_POLICY_FIFO | VOS_THREAD_POLICY_RR.

(** The native priority levels, named as the band table names them. *)
Inductive THREAD_PRIORITY : Type :=
| THREAD_PRIORITY_IDLE | THREAD_PRIORITY_LOWEST | THREAD_PRIORITY_BELOW_NORMAL
| THREAD_PRIORITY_NORMAL | THREAD_PRIORITY_ABOVE_NORMAL | THREAD_PRIORITY_HIGHEST
| THREAD_PRIORITY_TIME_CRITICAL.

(** The results of [WaitForSingleObject] the code tells apart. *)
Inductive WAIT_RESULT : Type :=
| WAIT_OBJECT_0 | WAIT_FAILED | WAIT_TIMEOUT | WAIT_ABANDONED | WAIT_OTHER (code : Z).

(** The time-out argument of [WaitForSingleObject]. *)
Inductive WAIT_TIME : Type := INFINITE | Milliseconds (ms : Z).

(** What [_ftime32_s] fills in: a 32 bit [time] and an [unsigned short]
    [millitm]. *)
Record timeb32 : Type := mkTimeb { time : Z; millitm : Z }.

(** An argument of a log format. *)
Inductive log_arg : Type := ArgInt (z : Z) | ArgStr (s : string) | ArgErr (e : VOS_ERR_T).

(** Pointers and handles are addresses; [NULL] is 0. *)
Definition NULL : Z := 0.

(** Calls that leave this file, indexed by the type of their answer.  A
    [BOOL] or [HANDLE] answer is a [Z]; out-parameters the code never reads
    ([threadId], [lpExitCode], [previousCount]) are left out. *)
Inductive native : Type -> Type :=
| CreateThread (dwStackSize lpStartAddress lpParameter : Z) : native Z
| SetThreadPriority (hThread : Z) (nPriority : THREAD_PRIORITY) : native Z
| TerminateThread (hThread dwExitCode : Z) : native Z
| GetExitCodeThread (hThread : Z) : native Z
| GetCurrentThread : native Z
| Sleep (dwMilliseconds : Z) : native unit
| GetLastError : native Z
| ftime32_s : native (Z * timeb32)
| CreateMutex : native Z
| CloseHandle (hObject : Z) : native Z
| WaitForSingleObject (hHandle : Z) (dwMilliseconds : WAIT_TIME) : native WAIT_RESULT
| ReleaseMutex (hMutex : Z) : native Z
| ReleaseSemaphore (hSemaphore lReleaseCount : Z) : native Z
| vos_memAlloc (size : Z) : native Z
| vos_sockGetMAC : native (VOS_ERR_T * list Z)
| thread_function (pFunction pArguments : Z) : native unit.

(** What C leaves undefined and the model stops at. *)
Inductive fault : Type :=
| NullDereference
| InvalidPointer (p : Z)
| IndexOutOfBounds (i : Z).

Inductive prog (A : Type) : Type :=
| Ret (a : A)
| Crash (f : fault)
| Log (lvl : VOS_LOG_T) (fmt : string) (args : list log_arg) (k : prog A)
| Call {X : Type} (c : native X) (k : X -> prog A).
Arguments Ret {A} a.
Arguments Crash {A} f.
Arguments Log {A} lvl fmt args k.
Arguments Call {A X} c k.

Fixpoint bind {A B : Type} (p : prog A) (f : A -> prog B) : prog B :=
  match p with
  | Ret a => f a
  | Crash e => Crash e
  | Log l s args k => Log l s args (bind k f)
  | Call c k => Call c (fun x => bind (k x) f)
  end.

#[global] Instance prog_ret : MRet prog := @Ret.
#[global] Instance prog_bind : MBind prog := fun A B f p => bind p f.

(** [vos_printLog] and [vos_printLogStr]. *)
Definition vos_printLog (lvl : VOS_LOG_T) (fmt : string) (args : list log_arg) : prog unit :=
  Log lvl fmt args (Ret tt).

Definition call {X : Type} (c : native X) : prog X := Call c Ret.

(** *** Running a program against an environment *)

Inductive event : Type :=
| EvLog (lvl : VOS_LOG_T) (fmt : string) (args : list log_arg)
| EvCall {X : Type} (c : native X) (answer : X).

Inductive outcome (A : Type) : Type :=
| Returned (a : A)
| Crashed (f : fault).
Arguments Returned {A} a.
Arguments Crashed {A} f.

(** The environment answers every native call and may change with it. *)
Definition handler (W : Type) : Type := forall X : Type, native X -> W -> X * W.

Fixpoint run {W A : Type} (h : handler W) (p : prog A) (w : W)
  : list event * outcome A * W :=
  match p with
  | Ret a => ([], Returned a, w)
  | Crash f => ([], Crashed f, w)
  | Log l s args k =>
      let '(tr, o, w') := run h k w in (EvLog l s args :: tr, o, w')
  | Call c k =>
      let '(x, w1) := h _ c w in
      let '(tr, o, w') := run h (k x) w1 in (EvCall c x :: tr, o, w')
  end.

Definition is_log (lvl : VOS_LOG_T) (e : event) : bool :=
  match e, lvl with
  | EvLog VOS_LOG_ERROR _ _, VOS_LOG_ERROR => true
  | EvLog VOS_LOG_WARNING _ _, VOS_LOG_WARNING => true
  | _, _ => false
  end.

Definition is_call (e : event) : bool :=
  match e with EvCall _ _ => true | EvLog _ _ _ => false end.

(** The errors a run reported to the logging sink. *)
Definition errors_logged (tr : list event) : list event :=
  filter (fun e => is_log VOS_LOG_ERROR e = true) tr.

(** The native calls a run made. *)
Definition native_calls (tr : list event) : list event :=
  filter (fun e => is_call e = true) tr.

Local Open Scope string_scope.
Local Open Scope Z_scope.

(** ** Time value operations

    A pointer to a time value is an [option]: [None] is [NULL], [Some t]
    points at [t].  An operation that writes through [pTime] returns what
    [pTime] points at afterwards. *)

Definition read_clock : prog VOS_TIMEVAL_T :=
  '(err, curTime) ← call ftime32_s;
  if err =? 0
  then mret (mkTimeval (long (time curTime)) (long (uint16 (millitm curTime) * 1000)))
  else mret (mkTimeval 0 0).

Definition vos_getTime (pTime : option VOS_TIMEVAL_T) : prog (option VOS_TIMEVAL_T) :=
  match pTime with
  | None => vos_printLog VOS_LOG_ERROR "ERROR NULL pointer\n" [];; mret None
  | Some _ => t ← read_clock; mret (Some t)
  end.

Definition vos_clearTime (pTime : option VOS_TIMEVAL_T) : prog (option VOS_TIMEVAL_T) :=
  match pTime with
  | None => vos_printLog VOS_LOG_ERROR "ERROR NULL pointer\n" [];; mret None
  | Some _ => mret (Some TimeOps.timerclear)
  end.

Definition vos_addTime (pTime pAdd : option VOS_TIMEVAL_T) : prog (option VOS_TIMEVAL_T) :=
  match pTime, pAdd with
  | Some t, Some a => mret (Some (TimeOps.addTime t a))
  | _, _ => vos_printLog VOS_LOG_ERROR "ERROR NULL pointer\n" [];; mret pTime
  end.

Definition vos_subTime (pTime pSub : option VOS_TIMEVAL_T) : prog (option VOS_TIMEVAL_T) :=
  match pTime, pSub with
  | Some t, Some s => mret (Some (TimeOps.subTime t s))
  | _, _ => vos_printLog VOS_LOG_ERROR "ERROR NULL pointer\n" [];; mret pTime
  end.

Definition vos_divTime (pTime : option VOS_TIMEVAL_T) (divisor : Z) : prog (option VOS_TIMEVAL_T) :=
  match pTime with
  | Some t =>
      if divisor =? 0
      then vos_printLog VOS_LOG_ERROR "ERROR NULL pointer/parameter\n" [];; mret pTime
      else mret (Some (TimeOps.divTime t divisor))
  | None => vos_printLog VOS_LOG_ERROR "ERROR NULL pointer/parameter\n" [];; mret pTime
  end.

Definition vos_mulTime (pTime : option VOS_TIMEVAL_T) (mul : Z) : prog (option VOS_TIMEVAL_T) :=
  match pTime with
  | Some t => mret (Some (TimeOps.mulTime t mul))
  | None => vos_printLog VOS_LOG_ERROR "ERROR NULL pointer/parameter\n" [];; mret None
  end.

Definition vos_cmpTime (pTime pCmp : option VOS_TIMEVAL_T) : prog Z :=
  match pTime, pCmp with
  | Some t, Some c => mret (TimeOps.cmpTime t c)
  | _, _ => mret 0
  end.

(** ** Threads *)

Definition cDefaultStackSize : Z := 16 * 1024.
Definition cMutextMagic : Z := 0x1234FEDC.
Definition NSECS_PER_USEC : Z := 1000.
Definition USECS_PER_MSEC : Z := 1000.
Definition MSECS_PER_SEC : Z := 1000.
Definition MAXSEC_FOR_USECPRESENTATION : Z := 4293.

(** The file's globals: [vosThreadInitialised] and the static [count] of
    [vos_getUuid]. *)
Record vos_state : Type := mkState { vosThreadInitialised : bool; count : Z }.

Definition initial_state : vos_state := mkState false 1.

Definition vos_threadInit (st : vos_state) : VOS_ERR_T * vos_state :=
  (VOS_NO_ERR, mkState true (count st)).

Definition vos_threadTerm (st : vos_state) : vos_state :=
  mkState false (count st).

(** [vos_threadDelay] *)
Definition vos_threadDelay (delay : Z) : prog VOS_ERR_T :=
  if delay <? 1000
  then vos_printLog VOS_LOG_WARNING "Win: thread delays < 1ms are not supported!\n" [];;
       mret VOS_PARAM_ERR
  else call (Sleep (delay / 1000));; mret VOS_NO_ERR.

(** The band table of [vos_threadCreate]. *)
Definition prioMap : list THREAD_PRIORITY :=
  [ THREAD_PRIORITY_IDLE; THREAD_PRIORITY_LOWEST; THREAD_PRIORITY_BELOW_NORMAL;
    THREAD_PRIORITY_NORMAL; THREAD_PRIORITY_ABOVE_NORMAL; THREAD_PRIORITY_HIGHEST;
    THREAD_PRIORITY_TIME_CRITICAL ].

(** [priority / 36 - 1]: [priority] is an unsigned 8 bit value promoted to
    [int], so the quotient is not negative and the difference is taken in
    [int]. *)
Definition band_index (priority : Z) : Z := priority / 36 - 1.

(** Reading [a[i]]: outside the array C leaves the read undefined; the
    model stops there and does not follow what a compiled program goes on
    to do with the value it finds. *)
Definition array_read {A : Type} (a : list A) (i : Z) : prog A :=
  if (0 <=? i) && (i <? Z.of_nat (length a))
  then match a !! Z.to_nat i with
       | Some x => mret x
       | None => Crash (IndexOutOfBounds i)
       end
  else Crash (IndexOutOfBounds i).

(** [vos_threadCreate].  [pThread] is [None] for [NULL] and [Some h] for a
    pointer to a handle [h]; the second component of the result is what
    [pThread] points at afterwards. *)
Definition vos_threadCreate (st : vos_state)
    (pThread : option Z) (pName : option string)
    (policy : VOS_THREAD_POLICY_T) (priority interval stackSize : Z)
    (pFunction pArguments : Z) : prog (VOS_ERR_T * option Z) :=
  if negb (vosThreadInitialised st) then mret (VOS_INIT_ERR, pThread)
  else
    match pThread, pName with
    | Some _, Some name =>
        if interval >? 0
        then vos_printLog VOS_LOG_ERROR "%s cyclic threads not implemented yet\n" [ArgStr name];;
             mret (VOS_INIT_ERR, Some NULL)
        else
          hThread ← call (CreateThread (if stackSize =? 0 then cDefaultStackSize else stackSize)
                                       pFunction pArguments);
          if hThread =? NULL
          then vos_printLog VOS_LOG_ERROR "%s CreateThread() failed\n" [ArgStr name];;
               mret (VOS_THREAD_ERR, Some NULL)
          else
            match policy with
            | VOS_THREAD_POLICY_OTHER => mret tt
            | _ => vos_printLog VOS_LOG_WARNING
                     "%s Thread policy other than 'default' is not supported!\n" [ArgStr name]
            end;;
            (if (priority >? 0) && (priority <=? 255)
             then nPriority ← array_read prioMap (band_index priority);
                  call (SetThreadPriority hThread nPriority);; mret tt
             else mret tt);;
            mret (VOS_NO_ERR, Some hThread)
    | _, _ => mret (VOS_PARAM_ERR, pThread)
    end.

(** [vos_threadTerminate] *)
Definition vos_threadTerminate (st : vos_state) (thread : Z) : prog VOS_ERR_T :=
  if negb (vosThreadInitialised st) then mret VOS_INIT_ERR
  else
    r ← call (TerminateThread thread 0);
    if r =? 0
    then e ← call GetLastError;
         vos_printLog VOS_LOG_ERROR "TerminateThread() failed (Err: %d)\n" [ArgInt e];;
         mret VOS_THREAD_ERR
    else mret VOS_NO_ERR.

(** [vos_threadIsActive] *)
Definition vos_threadIsActive (st : vos_state) (thread : Z) : prog VOS_ERR_T :=
  if negb (vosThreadInitialised st) then mret VOS_INIT_ERR
  else
    r ← call (GetExitCodeThread thread);
    if r =? 0 then mret VOS_PARAM_ERR else mret VOS_NO_ERR.

(** [vos_threadSelf]; the result carries what [pThread] points at
    afterwards. *)
Definition vos_threadSelf (pThread : option Z) : prog (VOS_ERR_T * option Z) :=
  match pThread with
  | None => mret (VOS_PARAM_ERR, None)
  | Some _ => h ← call GetCurrentThread; mret (VOS_NO_ERR, Some h)
  end.

(** ** The cyclic scheduler *)

(** From the comparison with [MAXSEC_FOR_USECPRESENTATION] to the value of
    [waitingTime]; [elapsed] is [afterCall] after the subtraction. *)
Definition cyclic_waitingTime (interval : Z) (elapsed : VOS_TIMEVAL_T) : prog Z :=
  if tv_sec elapsed <=? MAXSEC_FOR_USECPRESENTATION
  then
    let execTime :=
      ulong (ulong (ulong (ulong (tv_sec elapsed) * MSECS_PER_SEC) * USECS_PER_MSEC)
             + ulong (tv_usec elapsed)) in
    if execTime >? interval
    then vos_printLog VOS_LOG_ERROR
           "cyclic thread with interval %d usec was running  %d usec\n"
           [ArgInt interval; ArgInt execTime];;
         mret 0
    else mret (ulong (interval - execTime))
  else
    vos_printLog VOS_LOG_ERROR
      "cyclic thread with interval %d usec exceeded time out by running %d sec\n"
      [ArgInt interval; ArgInt (tv_sec elapsed)];;
    mret 0.

(** One turn of the [for (;;)] loop of [vos_cyclicThread].  The locals
    [priorCall] and [afterCall] are never [NULL], so the clock is read
    without the pointer test.  The value of [waitingTime] is returned so
    that it can be observed. *)
Definition cyclic_turn (interval pFunction pArguments : Z) : prog Z :=
  priorCall ← read_clock;
  call (thread_function pFunction pArguments);;
  afterCall ← read_clock;
  let afterCall := TimeOps.subTime afterCall priorCall in
  waitingTime ← cyclic_waitingTime interval afterCall;
  vos_threadDelay waitingTime;;
  mret waitingTime.

(** The first [turns] turns of [vos_cyclicThread], which itself never
    returns. *)
Fixpoint vos_cyclicThread (turns : nat) (interval pFunction pArguments : Z) : prog (list Z) :=
  match turns with
  | O => mret []
  | S n =>
      w ← cyclic_turn interval pFunction pArguments;
      ws ← vos_cyclicThread n interval pFunction pArguments;
      mret (w :: ws)
  end.

(** ** The identity generator *)

(** [vos_getUuid].  [pUuID] is the caller's array of 16 [UINT8]; the result
    is the array afterwards and the new value of the static [count].
    [vos_sockGetMAC] answers with its return code and the bytes it stored
    from [&pUuID[10]] on. *)
Definition vos_getUuid (st : vos_state) (pUuID : list Z) : prog (list Z * vos_state) :=
  current ← read_clock;
  let pUuID := <[0%nat := uint8 (Z.land (tv_usec current) 0xFF)]> pUuID in
  let pUuID := <[1%nat := uint8 (Z.shiftr (Z.land (tv_usec current) 0xFF00) 8)]> pUuID in
  let pUuID := <[2%nat := uint8 (Z.shiftr (Z.land (tv_usec current) 0xFF0000) 16)]> pUuID in
  let pUuID := <[3%nat := uint8 (Z.shiftr (Z.land (tv_usec current) 0xFF000000) 24)]> pUuID in
  let pUuID := <[4%nat := uint8 (Z.land (tv_sec current) 0xFF)]> pUuID in
  let pUuID := <[5%nat := uint8 (Z.shiftr (Z.land (tv_sec current) 0xFF00) 8)]> pUuID in
  let pUuID := <[6%nat := uint8 (Z.shiftr (Z.land (tv_sec current) 0xFF0000) 16)]> pUuID in
  let pUuID := <[7%nat := uint8 (Z.lor (Z.shiftr (Z.land (tv_sec current) 0x0F000000) 24) 0x4)]> pUuID in
  let pUuID := <[8%nat := uint8 (Z.land (count st) 0xFF)]> pUuID in
  let pUuID := <[9%nat := uint8 (Z.shiftr (count st) 8)]> pUuID in
  let st := mkState (vosThreadInitialised st) (uint16 (count st + 1)) in
  '(ret, mac) ← call vos_sockGetMAC;
  let pUuID := list_inserts 10 mac pUuID in
  match ret with
  | VOS_NO_ERR => mret tt
  | _ => vos_printLog VOS_LOG_ERROR "vos_sockGetMAC() failed (Err:%d)\n" [ArgErr ret]
  end;;
  mret (pUuID, st).

(** Successive calls, one per array of the caller. *)
Fixpoint getUuid_calls (st : vos_state) (bufs : list (list Z)) : prog (list (list Z) * vos_state) :=
  match bufs with
  | [] => mret ([], st)
  | pUuID :: rest =>
      '(u, st1) ← vos_getUuid st pUuID;
      '(us, st2) ← getUuid_calls st1 rest;
      mret (u :: us, st2)
  end.

(** ** Mutexes and semaphores *)

(** [struct VOS_MUTEX] and [struct VOS_SEMA], as this file uses them. *)
Record VOS_MUTEX : Type := mkMutex { mutexId : Z; magicNo : Z }.
Record VOS_SEMA : Type := mkSema { semaphore : Z }.

(** The objects handles point at, by address. *)
Record vos_memory : Type := mkMemory { mutexes : gmap Z VOS_MUTEX; semas : gmap Z VOS_SEMA }.

(** Reading through a pointer. *)
Definition load {A : Type} (m : gmap Z A) (p : Z) : prog A :=
  if p =? NULL then Crash NullDereference
  else match m !! p with
       | Some x => mret x
       | None => Crash (InvalidPointer p)
       end.

(** [pMutex == NULL || pMutex->magicNo != cMutextMagic] *)
Definition mutex_invalid (mem : vos_memory) (pMutex : Z) : prog bool :=
  if pMutex =? NULL then mret true
  else m ← load (mutexes mem) pMutex; mret (negb (magicNo m =? cMutextMagic)).

(** [vos_mutexLocalCreate]; the result carries the memory afterwards. *)
Definition vos_mutexLocalCreate (mem : vos_memory) (pMutex : Z) : prog (VOS_ERR_T * vos_memory) :=
  if pMutex =? NULL then mret (VOS_PARAM_ERR, mem)
  else
    hMutex ← call CreateMutex;
    if hMutex =? NULL
    then vos_printLog VOS_LOG_ERROR "Can not create Mutex(winthread err=%d)\n" [ArgInt 0];;
         mret (VOS_MUTEX_ERR, mem)
    else mret (VOS_NO_ERR,
               mkMemory (<[pMutex := mkMutex hMutex cMutextMagic]> (mutexes mem)) (semas mem)).

(** [vos_mutexDelete]; the result is the memory afterwards. *)
Definition vos_mutexDelete (mem : vos_memory) (pMutex : Z) : prog vos_memory :=
  bad ← mutex_invalid mem pMutex;
  if bad : bool
  then vos_printLog VOS_LOG_ERROR "vos_mutexDelete() ERROR invalid parameter" [];; mret mem
  else
    m ← load (mutexes mem) pMutex;
    r ← call (CloseHandle (mutexId m));
    if negb (r =? 0)
    then mret (mkMemory (<[pMutex := mkMutex (mutexId m) 0]> (mutexes mem)) (semas mem))
    else e ← call GetLastError;
         vos_printLog VOS_LOG_ERROR "Can not destroy Mutex (Mutex error err=%d)\n" [ArgInt e];;
         mret mem.

(** [vos_mutexLocalDelete] *)
Definition vos_mutexLocalDelete (mem : vos_memory) (pMutex : Z) : prog vos_memory :=
  vos_mutexDelete mem pMutex.

(** [vos_mutexLock] *)
Definition vos_mutexLock (mem : vos_memory) (pMutex : Z) : prog VOS_ERR_T :=
  bad ← mutex_invalid mem pMutex;
  if bad : bool then mret VOS_PARAM_ERR
  else
    m ← load (mutexes mem) pMutex;
    dwWaitResult ← call (WaitForSingleObject (mutexId m) INFINITE);
    match dwWaitResult with
    | WAIT_OBJECT_0 => mret VOS_NO_ERR
    | _ => e ← call GetLastError;
           vos_printLog VOS_LOG_ERROR "Unable to lock Mutex (winthread err=%d)\n" [ArgInt e];;
           mret VOS_MUTEX_ERR
    end.

(** [vos_mutexTryLock] *)
Definition vos_mutexTryLock (mem : vos_memory) (pMutex : Z) : prog VOS_ERR_T :=
  bad ← mutex_invalid mem pMutex;
  if bad : bool then mret VOS_PARAM_ERR
  else
    m ← load (mutexes mem) pMutex;
    dwWaitResult ← call (WaitForSingleObject (mutexId m) (Milliseconds 0));
    match dwWaitResult with
    | WAIT_OBJECT_0 => mret VOS_NO_ERR
    | WAIT_FAILED =>
        e ← call GetLastError;
        vos_printLog VOS_LOG_ERROR "Unable to trylock Mutex (Mutex err=%d)\n" [ArgInt e];;
        mret VOS_MUTEX_ERR
    | WAIT_TIMEOUT | WAIT_ABANDONED => mret VOS_INUSE_ERR
    | WAIT_OTHER _ => mret VOS_MUTEX_ERR
    end.

(** [vos_mutexUnlock] *)
Definition vos_mutexUnlock (mem : vos_memory) (pMutex : Z) : prog VOS_ERR_T :=
  bad ← mutex_invalid mem pMutex;
  if bad : bool
  then vos_printLog VOS_LOG_ERROR "vos_mutexUnlock() ERROR invalid parameter" [];;
       mret VOS_PARAM_ERR
  else
    m ← load (mutexes mem) pMutex;
    r ← call (ReleaseMutex (mutexId m));
    if r =? 0
    then e ← call GetLastError;
         vos_printLog VOS_LOG_ERROR "Unable to unlock Mutex (Mutex err=%d)\n" [ArgInt e];;
         mret VOS_MUTEX_ERR
    else mret VOS_NO_ERR.

(** [vos_semaTake].  The test for [NULL] only logs and sets [retVal]; the
    statement after it reads [sema->semaphore] in every case. *)
Definition vos_semaTake (mem : vos_memory) (sema : Z) (timeout : Z) : prog VOS_ERR_T :=
  retVal ← (if sema =? NULL
            then vos_printLog VOS_LOG_ERROR
                   "vos_semaTake() ERROR invalid parameter 'sema' == NULL\n" [];;
                 mret VOS_NOINIT_ERR
            else mret VOS_SEMA_ERR);
  s ← load (semas mem) sema;
  dwWaitResult ← call (WaitForSingleObject (semaphore s) (Milliseconds (timeout / USECS_PER_MSEC)));
  match dwWaitResult with
  | WAIT_OBJECT_0 => mret VOS_NO_ERR
  | WAIT_FAILED =>
      e ← call GetLastError;
      vos_printLog VOS_LOG_ERROR "Unable to trylock Mutex (Mutex err=%d)\n" [ArgInt e];;
      mret VOS_SEMA_ERR
  | _ => mret retVal
  end.

(** [vos_semaGive] *)
Definition vos_semaGive (mem : vos_memory) (sema : Z) : prog unit :=
  if sema =? NULL
  then vos_printLog VOS_LOG_ERROR "vos_semaGive() ERROR invalid parameter 'sema' == NULL\n" []
  else
    s ← load (semas mem) sema;
    r ← call (ReleaseSemaphore (semaphore s) 1);
    if r =? 0
    then mret tt
    else vos_printLog VOS_LOG_ERROR "vos_semaGive() ERROR could not release semaphore\n" [].


(** ** Observing programs *)

(** [p] ends by returning a value that satisfies [P], without a native
    call on the way. *)
Fixpoint returns {A : Type} (p : prog A) (P : A -> Prop) : Prop :=
  match p with
  | Ret a => P a
  | Log _ _ _ k => returns k P
  | Crash _ => False
  | Call _ _ => False
  end.

(** The thread operations that can be asked for, with their arguments. *)
Inductive thread_op : Type :=
| OpCreate (pThread : option Z) (pName : option string)
    (policy : VOS_THREAD_POLICY_T) (priority interval stackSize pFunction pArguments : Z)
| OpTerminate (thread : Z)
| OpIsActive (thread : Z)
| OpSelf (pThread : option Z)
| OpDelay (delay : Z).

(** What the operation's handle pointer, if it has one, points at before
    the call. *)
Definition out_pointer (op : thread_op) : option Z :=
  match op with
  | OpCreate pThread _ _ _ _ _ _ _ => pThread
  | OpSelf pThread => pThread
  | _ => None
  end.

(** The call of an operation: its return code and what its handle pointer
    points at afterwards. *)
Definition thread_call (st : vos_state) (op : thread_op) : prog (VOS_ERR_T * option Z) :=
  match op with
  | OpCreate pThread pName policy priority interval stackSize pFunction pArguments =>
      vos_threadCreate st pThread pName policy priority interval stackSize pFunction pArguments
  | OpTerminate thread => r ← vos_threadTerminate st thread; mret (r, None)
  | OpIsActive thread => r ← vos_threadIsActive st thread; mret (r, None)
  | OpSelf pThread => vos_threadSelf pThread
  | OpDelay delay => r ← vos_threadDelay delay; mret (r, None)
  end.

(** A handle that fails the test of the integrity tag. *)
Definition mutex_tag_mismatch (mem : vos_memory) (pMutex : Z) : Prop :=
  pMutex = NULL \/
  exists m, mutexes mem !! pMutex = Some m /\ magicNo m <> cMutextMagic.

(** Every mutex operation answers with the invalid-parameter outcome, by
    return code or by log, and nothing else happens. *)
Definition mutex_rejected (mem : vos_memory) (pMutex : Z) : Prop :=
  vos_mutexLock mem pMutex = mret VOS_PARAM_ERR /\
  vos_mutexTryLock mem pMutex = mret VOS_PARAM_ERR /\
  vos_mutexUnlock mem pMutex =
    Log VOS_LOG_ERROR "vos_mutexUnlock() ERROR invalid parameter" [] (Ret VOS_PARAM_ERR) /\
  vos_mutexDelete mem pMutex =
    Log VOS_LOG_ERROR "vos_mutexDelete() ERROR invalid parameter" [] (Ret mem).

(** A [BOOL] answer of a native call reports failure by 0, the test
    [vos_mutexUnlock] and [vos_mutexDelete] make. *)
Definition native_failed (r : Z) : bool := r =? 0.

(** Bytes 8 and 9 of an identifier, read back as one number. *)
Definition uuid_counter (u : list Z) : Z := u !!! 8%nat + 256 * u !!! 9%nat.

(** The time value [read_clock] makes of an answer of [_ftime32_s]. *)
Definition clock_value (answer : Z * timeb32) : VOS_TIMEVAL_T :=
  if answer.1 =? 0
  then mkTimeval (long (time answer.2)) (long (uint16 (millitm answer.2) * 1000))
  else mkTimeval 0 0.

(** An environment in which every native call succeeds: handles and
    [BOOL] answers are 1, waits are granted, the clock stands at 0 and the
    hardware address is all zeros. *)
Definition quiet_env : handler unit := fun X c w =>
  match c in native X return X * unit with
  | Sleep _ | thread_function _ _ => (tt, w)
  | ftime32_s => ((0, mkTimeb 0 0), w)
  | WaitForSingleObject _ _ => (WAIT_OBJECT_0, w)
  | vos_sockGetMAC => ((VOS_NO_ERR, [0; 0; 0; 0; 0; 0]), w)
  | GetLastError => (0, w)
  | _ => (1, w)
  end.

(** An environment with a clock in milliseconds: every call of the thread
    function takes [busy] milliseconds, a sleep takes what it is asked
    for, and everything else succeeds at once. *)
Definition busy_env (busy : Z) : handler Z := fun X c now =>
  match c in native X return X * Z with
  | Sleep ms => (tt, now + ms)
  | thread_function _ _ => (tt, now + busy)
  | ftime32_s => ((0, mkTimeb (now / 1000) (now mod 1000)), now)
  | WaitForSingleObject _ _ => (WAIT_OBJECT_0, now)
  | vos_sockGetMAC => ((VOS_NO_ERR, [0; 0; 0; 0; 0; 0]), now)
  | GetLastError => (0, now)
  | _ => (1, now)
  end.

(** ** Further operations and measures *)

(** The length of a time value in microseconds. *)
Definition to_usec (t : VOS_TIMEVAL_T) : Z := tv_sec t * 1000000 + tv_usec t.

(** [vos_mutexCreate].  [pMutex] points at the caller's handle variable:
    [None] is a [NULL] pointer, [Some p] a variable holding [p].  The
    result carries the return code, the variable afterwards and the memory
    afterwards.  [sizeof (struct VOS_MUTEX)] belongs to a declaration
    outside this file and is taken as the parameter [sizeof_VOS_MUTEX]. *)
Definition vos_mutexCreate (sizeof_VOS_MUTEX : Z) (mem : vos_memory) (pMutex : option Z)
  : prog (VOS_ERR_T * option Z * vos_memory) :=
  match pMutex with
  | None => mret (VOS_PARAM_ERR, None, mem)
  | Some p0 =>
      p ← (if p0 =? NULL then call (vos_memAlloc sizeof_VOS_MUTEX) else mret p0);
      if p =? NULL then mret (VOS_MEM_ERR, Some p, mem)
      else
        hMutex ← call CreateMutex;
        if hMutex =? NULL
        then vos_printLog VOS_LOG_ERROR "Can not create Mutex(winthread err=%d)\n" [ArgInt 0];;
             mret (VOS_MUTEX_ERR, Some p, mem)
        else mret (VOS_NO_ERR, Some p,
                   mkMemory (<[p := mkMutex hMutex cMutextMagic]> (mutexes mem)) (semas mem))
  end.

(** [vos_semaDelete] *)
Definition vos_semaDelete (mem : vos_memory) (sema : Z) : prog unit :=
  if sema =? NULL
  then vos_printLog VOS_LOG_ERROR "vos_semaDelete() ERROR invalid parameter\n" []
  else
    s ← load (semas mem) sema;
    call (CloseHandle (semaphore s));; mret tt.

(** The calls of the thread function in a run. *)
Definition is_thread_function (e : event) : bool :=
  match e with EvCall (thread_function _ _) _ => true | _ => false end.

(** The sleeps of a run, by their length in milliseconds. *)
Definition sleeps (tr : list event) : list Z :=
  omap (fun e => match e with EvCall (Sleep ms) _ => Some ms | _ => None end) tr.

(** The priorities a run set, by thread handle and native level. *)
Definition priorities_set (tr : list event) : list (Z * THREAD_PRIORITY) :=
  omap (fun e => match e with
                 | EvCall (SetThreadPriority hd level) _ => Some (hd, level)
                 | _ => None
                 end) tr.

(** The native waits of a run, by handle and time-out. *)
Definition waits (tr : list event) : list (Z * WAIT_TIME) :=
  omap (fun e => match e with
                 | EvCall (WaitForSingleObject hd ms) _ => Some (hd, ms)
                 | _ => None
                 end) tr.

(** An environment whose clock and hardware address do not change. *)
Definition frozen {W : Type} (h : handler W) (now : Z * timeb32) (mac : VOS_ERR_T * list Z) : Prop :=
  forall w : W, h _ ftime32_s w = (now, w) /\ h _ vos_sockGetMAC w = (mac, w).

(** The ten bytes [vos_getUuid] computes itself, from the time [now] and
    the counter [cnt], in the order of the array. *)
Definition uuid_head (now : VOS_TIMEVAL_T) (cnt : Z) : list Z :=
  [ uint8 (Z.land (tv_usec now) 0xFF);
    uint8 (Z.shiftr (Z.land (tv_usec now) 0xFF00) 8);
    uint8 (Z.shiftr (Z.land (tv_usec now) 0xFF0000) 16);
    uint8 (Z.shiftr (Z.land (tv_usec now) 0xFF000000) 24);
    uint8 (Z.land (tv_sec now) 0xFF);
    uint8 (Z.shiftr (Z.land (tv_sec now) 0xFF00) 8);
    uint8 (Z.shiftr (Z.land (tv_sec now) 0xFF0000) 16);
    uint8 (Z.lor (Z.shiftr (Z.land (tv_sec now) 0x0F000000) 24) 0x4);
    uint8 (Z.land cnt 0xFF);
    uint8 (Z.shiftr cnt 8) ].

(** The allocations of a run, by requested size. *)
Definition allocations (tr : list event) : list Z :=
  omap (fun e => match e with EvCall (vos_memAlloc size) _ => Some size | _ => None end) tr.

(** The codes [vos_mutexLock] and [vos_mutexTryLock] return for an answer
    of the native wait on a valid handle, read off their branches. *)
Definition lock_code (r : WAIT_RESULT) : VOS_ERR_T :=
  match r with WAIT_OBJECT_0 => VOS_NO_ERR | _ => VOS_MUTEX_ERR end.

Definition tryLock_code (r : WAIT_RESULT) : VOS_ERR_T :=
  match r with
  | WAIT_OBJECT_0 => VOS_NO_ERR
  | WAIT_TIMEOUT | WAIT_ABANDONED => VOS_INUSE_ERR
  | WAIT_FAILED | WAIT_OTHER _ => VOS_MUTEX_ERR
  end.

(** An environment like [quiet_env] in which no memory is left: every
    allocation answers [NULL]. *)
Definition exhausted_env : handler unit := fun X c w =>
  match c in native X return X * unit with
  | vos_memAlloc _ => (NULL, w)
  | c' => quiet_env _ c' w
  end.

(** An environment like [quiet_env] in which every native wait runs into
    its time-out. *)
Definition contended_env : handler unit := fun X c w =>
  match c in native X return X * unit with
  | WaitForSingleObject _ _ => (WAIT_TIMEOUT, w)
  | c' => quiet_env _ c' w
  end.

(** * Properties *)

(** ** Machine integers *)

Section CIntFacts.

Lemma long_in_long z : in_long (long z).
Proof. unfold in_long, long. pose proof (Z.mod_pos_bound (z + 2147483648) 4294967296). lia. Qed.

Lemma long_id z : in_long z -> long z = z.
Proof. unfold in_long, long. intros H. rewrite Z.mod_small by lia. lia. Qed.

Lemma ulong_in_ulong z : in_ulong (ulong z).
Proof. unfold in_ulong, ulong. apply Z.mod_pos_bound. lia. Qed.

Lemma ulong_id z : in_ulong z -> ulong z = z.
Proof. unfold in_ulong, ulong. intros H. apply Z.mod_small. lia. Qed.

Lemma ulong_le z : 0 <= z -> ulong z <= z.
Proof. unfold ulong. intros H. apply Z.mod_le; lia. Qed.

(** [long] only ever moves a value by a multiple of [2^32]. *)
Lemma long_spec z : exists k, long z = z + 4294967296 * k.
Proof.
  unfold long. exists (- ((z + 2147483648) / 4294967296)).
  pose proof (Z.div_mod (z + 2147483648) 4294967296). lia.
Qed.

Lemma ulong_spec z : exists k, ulong z = z + 4294967296 * k.
Proof.
  unfold ulong. exists (- (z / 4294967296)).
  pose proof (Z.div_mod z 4294967296). lia.
Qed.

(** Two values of [long] that differ by a multiple of [2^32] are equal. *)
Lemma long_unique a z k : in_long a -> z = a + 4294967296 * k -> long z = a.
Proof.
  intros Ha ->. pose proof (long_in_long (a + 4294967296 * k)) as Hr.
  destruct (long_spec (a + 4294967296 * k)) as [j Hj].
  unfold in_long in *. lia.
Qed.

Lemma long_ulong z : long (ulong z) = long z.
Proof.
  destruct (ulong_spec z) as [k Hk]. destruct (long_spec z) as [j Hj].
  apply (long_unique _ _ (k - j)); [apply long_in_long | lia].
Qed.

Lemma long_le z : 0 <= z -> long z <= z.
Proof.
  intros Hz. pose proof (long_in_long z) as Hr. destruct (long_spec z) as [k Hk].
  unfold in_long in Hr. lia.
Qed.

End CIntFacts.


(** ** Time values *)

Section TimeFacts.

Import TimeOps.

(** The loop leaves a microsecond field below one second alone, so a
    negative field stays negative. *)
Lemma carry_loop_done sec usec : usec < 1000000 -> carry_loop sec usec = mkTimeval sec usec.
Proof.
  intros H. rewrite carry_loop_equation_1.
  destruct (Z_le_gt_dec 1000000 usec); [lia | reflexivity].
Qed.

Lemma carry_loop_step sec usec :
  1000000 <= usec ->
  carry_loop sec usec = carry_loop (long (sec + 1)) (long (usec - 1000000)).
Proof.
  intros H. rewrite carry_loop_equation_1.
  destruct (Z_le_gt_dec 1000000 usec); [reflexivity | lia].
Qed.

(** From a non-negative [long] the loop ends with a normalized field. *)
Lemma carry_loop_normalized sec usec :
  0 <= usec -> in_long usec -> usec_normalized (carry_loop sec usec).
Proof.
  intros Hpos Hr.
  assert (Hn : exists n : nat, usec < 1000000 * (Z.of_nat n + 1)).
  { exists (Z.to_nat usec). lia. }
  destruct Hn as [n Hn]. revert sec usec Hpos Hr Hn.
  induction n as [|n IH]; intros sec usec Hpos Hr Hn.
  - rewrite carry_loop_done by lia. unfold usec_normalized. simpl. lia.
  - destruct (Z_le_gt_dec 1000000 usec) as [Hge|Hlt].
    + rewrite carry_loop_step by assumption.
      unfold in_long in Hr. rewrite (long_id (usec - 1000000)) by (unfold in_long; lia).
      apply IH; unfold in_long; lia.
    + rewrite carry_loop_done by lia. unfold usec_normalized. simpl. lia.
Qed.

Lemma addTime_small (a b : VOS_TIMEVAL_T) :
  timeval_valid a -> timeval_valid b ->
  tv_usec a + tv_usec b < 1000000 ->
  addTime a b = mkTimeval (long (tv_sec a + tv_sec b)) (tv_usec a + tv_usec b).
Proof.
  intros [_ Ha] [_ Hb] Hs. unfold usec_normalized in *. unfold addTime.
  rewrite (long_id (tv_usec a + tv_usec b)) by (unfold in_long; lia).
  apply carry_loop_done. lia.
Qed.

Lemma addTime_carry (a b : VOS_TIMEVAL_T) :
  timeval_valid a -> timeval_valid b ->
  1000000 <= tv_usec a + tv_usec b ->
  addTime a b = mkTimeval (long (long (tv_sec a + tv_sec b) + 1))
                          (tv_usec a + tv_usec b - 1000000).
Proof.
  intros [_ Ha] [_ Hb] Hs. unfold usec_normalized in *. unfold addTime.
  rewrite (long_id (tv_usec a + tv_usec b)) by (unfold in_long; lia).
  rewrite carry_loop_step by lia.
  rewrite (long_id (tv_usec a + tv_usec b - 1000000)) by (unfold in_long; lia).
  apply carry_loop_done. lia.
Qed.

Lemma addTime_normalized (a b : VOS_TIMEVAL_T) :
  timeval_valid a -> timeval_valid b -> usec_normalized (addTime a b).
Proof.
  intros Ha Hb. destruct (Z_le_gt_dec 1000000 (tv_usec a + tv_usec b)).
  - rewrite addTime_carry by assumption.
    destruct Ha as [_ Ha], Hb as [_ Hb]. unfold usec_normalized in *. simpl. lia.
  - rewrite addTime_small by (assumption || lia).
    destruct Ha as [_ Ha], Hb as [_ Hb]. unfold usec_normalized in *. simpl. lia.
Qed.

Lemma subTime_normalized (a b : VOS_TIMEVAL_T) :
  timeval_valid a -> timeval_valid b -> usec_normalized (subTime a b).
Proof.
  intros [_ Ha] [_ Hb]. unfold usec_normalized in *. unfold subTime.
  destruct (Z.gtb_spec (tv_usec b) (tv_usec a)); simpl.
  - rewrite (long_id (tv_usec a + 1000000)) by (unfold in_long; lia).
    rewrite long_id by (unfold in_long; lia). lia.
  - rewrite long_id by (unfold in_long; lia). lia.
Qed.

Lemma subTime_in_long (a b : VOS_TIMEVAL_T) : in_long (tv_sec (subTime a b)).
Proof.
  unfold subTime. destruct (tv_usec b >? tv_usec a); simpl; apply long_in_long.
Qed.

Lemma add_sub_roundtrip (a b : VOS_TIMEVAL_T) :
  timeval_valid a -> timeval_valid b -> subTime (addTime a b) b = a.
Proof.
  intros Ha Hb. destruct a as [sa ua], b as [sb ub].
  destruct (Z_le_gt_dec 1000000 (ua + ub)) as [Hc|Hc].
  - rewrite addTime_carry by assumption.
    destruct Ha as [Hsa Ha], Hb as [Hsb Hb]. unfold usec_normalized in *. simpl in *.
    unfold subTime. simpl.
    destruct (Z.gtb_spec ub (ua + ub - 1000000)); [|lia].
    rewrite (long_id (ua + ub - 1000000 + 1000000)) by (unfold in_long; lia).
    f_equal.
    + destruct (long_spec (sa + sb)) as [k1 H1].
      destruct (long_spec (long (sa + sb) + 1)) as [k2 H2].
      destruct (long_spec (long (long (sa + sb) + 1) - 1)) as [k3 H3].
      apply (long_unique _ _ (k1 + k2 + k3)); [assumption | lia].
    + rewrite long_id by (unfold in_long; lia). lia.
  - rewrite addTime_small by (assumption || (simpl; lia)).
    destruct Ha as [Hsa Ha], Hb as [Hsb Hb]. unfold usec_normalized in *. simpl in *.
    unfold subTime. simpl.
    destruct (Z.gtb_spec ub (ua + ub)); [lia|].
    f_equal.
    + destruct (long_spec (sa + sb)) as [k1 H1].
      apply (long_unique _ _ k1); [assumption | lia].
    + rewrite long_id by (unfold in_long; lia). lia.
Qed.

Lemma divTime_normalized (a : VOS_TIMEVAL_T) (k : Z) :
  timeval_valid a -> 0 < k -> usec_normalized (divTime a k).
Proof.
  intros [_ Ha] Hk. unfold usec_normalized in *. unfold divTime. simpl.
  pose proof (Z.mod_pos_bound (ulong (tv_sec a)) k Hk) as Ht.
  set (temp := ulong (tv_sec a) mod k) in *.
  assert (Hq : forall y, 0 <= y < k * 1000000 -> 0 <= y / k < 1000000).
  { intros y Hy. split; [apply Z.div_pos; lia | apply Z.div_lt_upper_bound; lia]. }
  destruct (Z.gtb_spec temp 0) as [Hpos|Hz].
  - rewrite long_ulong.
    rewrite (ulong_id (tv_usec a)) by (unfold in_ulong; lia).
    set (x := tv_usec a + ulong (temp * 1000000)).
    assert (Hx : 0 <= x < k * 1000000).
    { unfold x. pose proof (ulong_le (temp * 1000000)).
      pose proof (ulong_in_ulong (temp * 1000000)) as Hu. unfold in_ulong in Hu. nia. }
    assert (Hy : 0 <= ulong (long x) < k * 1000000).
    { destruct (Z_le_gt_dec 4294967296 x).
      - pose proof (ulong_in_ulong (long x)) as Hu. unfold in_ulong in Hu. lia.
      - assert (ulong (long x) = x) as ->; [|lia].
        destruct (long_spec x) as [j Hj]. destruct (ulong_spec (long x)) as [i Hi].
        pose proof (ulong_in_ulong (long x)) as Hu. unfold in_ulong in Hu. lia. }
    specialize (Hq _ Hy). rewrite long_id by (unfold in_long; lia). lia.
  - rewrite (ulong_id (tv_usec a)) by (unfold in_ulong; lia).
    assert (Hy : 0 <= tv_usec a < k * 1000000) by nia.
    specialize (Hq _ Hy). rewrite long_id by (unfold in_long; lia). lia.
Qed.

Lemma divTime_one (t : VOS_TIMEVAL_T) : timeval_wf t -> divTime t 1 = t.
Proof.
  intros [Hs Hu]. destruct t as [s u]. simpl in *. unfold divTime. simpl.
  rewrite Z.mod_1_r. simpl. rewrite !Z.div_1_r, !long_ulong, !long_id by assumption.
  reflexivity.
Qed.

Lemma mulTime_usec (a : VOS_TIMEVAL_T) (k : Z) :
  usec_normalized (mulTime a k) <-> 0 <= long (tv_usec a * k).
Proof.
  unfold mulTime. rewrite !long_ulong.
  assert (long (ulong (tv_usec a) * k) = long (tv_usec a * k)) as ->.
  { destruct (ulong_spec (tv_usec a)) as [i Hi]. destruct (long_spec (tv_usec a * k)) as [j Hj].
    apply (long_unique _ _ (i * k - j)); [apply long_in_long | lia]. }
  set (u := long (tv_usec a * k)). split.
  - intros Hn. destruct (Z_le_gt_dec 0 u) as [|Hneg]; [assumption|].
    rewrite carry_loop_done in Hn by lia. unfold usec_normalized in Hn. simpl in Hn. lia.
  - intros Hpos. apply carry_loop_normalized; [assumption | apply long_in_long].
Qed.

End TimeFacts.

(** C4, as stated, fails for multiply: the product of the microsecond
    field 999999 and the factor 2148 does not fit the 32 bit field, comes
    out negative, and the loop that carries whole seconds is skipped. *)
Lemma C4_mulTime_leaves_negative_usec :
  timeval_valid (mkTimeval 0 999999) /\
  in_ulong 2148 /\
  vos_mulTime (Some (mkTimeval 0 999999)) 2148 = mret (Some (mkTimeval 0 (-2146969444))) /\
  ~ usec_normalized (mkTimeval 0 (-2146969444)).
Proof.
  repeat split; try (vm_compute; congruence).
  unfold usec_normalized. simpl. lia.
Qed.

(** C4, amended: for time values [a] and [b] with microseconds in
    [0, 1000000), adding [b] to [a] and then subtracting [b] gives back
    [a] exactly; the microsecond field is in [0, 1000000) after add, after
    subtract and after divide by any divisor; after multiply by [k] it is
    in that range exactly when the 32 bit product of the microsecond field
    and [k] is not negative, which holds whenever the product is below
    [2^31]. *)
Theorem C4_add_sub_roundtrip_and_usec_range (a b : VOS_TIMEVAL_T) (k : Z) :
  timeval_valid a -> timeval_valid b -> in_ulong k ->
  (s ← vos_addTime (Some a) (Some b); vos_subTime s (Some b)) = mret (Some a) /\
  returns (vos_addTime (Some a) (Some b)) (fun r => exists t, r = Some t /\ usec_normalized t) /\
  returns (vos_subTime (Some a) (Some b)) (fun r => exists t, r = Some t /\ usec_normalized t) /\
  returns (vos_divTime (Some a) k) (fun r => exists t, r = Some t /\ usec_normalized t) /\
  (returns (vos_mulTime (Some a) k) (fun r => exists t, r = Some t /\ usec_normalized t)
   <-> 0 <= long (tv_usec a * k)) /\
  (tv_usec a * k < 2147483648 -> 0 <= long (tv_usec a * k)).
Proof.
  intros Ha Hb Hk. repeat split.
  - cbn. rewrite add_sub_roundtrip by assumption. reflexivity.
  - cbn. eexists; split; [reflexivity | apply addTime_normalized; assumption].
  - cbn. eexists; split; [reflexivity | apply subTime_normalized; assumption].
  - unfold vos_divTime. destruct (Z.eqb_spec k 0) as [->|Hnz]; cbn.
    + eexists; split; [reflexivity | apply Ha].
    + eexists; split; [reflexivity|]. unfold in_ulong in Hk.
      apply divTime_normalized; [assumption | lia].
  - cbn. intros [t [Ht Hn]]. injection Ht as <-. apply mulTime_usec. assumption.
  - cbn. intros Hp. eexists; split; [reflexivity | apply mulTime_usec; assumption].
  - intros Hlt. destruct Ha as [_ Ha]. unfold usec_normalized, in_ulong in *.
    rewrite long_id; [nia | unfold in_long; nia].
Qed.

Lemma C4_add_sub_roundtrip_and_usec_range_witness :
  (s ← vos_addTime (Some (mkTimeval 5 999999)) (Some (mkTimeval 7 2)); vos_subTime s (Some (mkTimeval 7 2)))
    = mret (Some (mkTimeval 5 999999)) /\
  returns (vos_addTime (Some (mkTimeval 5 999999)) (Some (mkTimeval 7 2)))
    (fun r => exists t, r = Some t /\ usec_normalized t) /\
  returns (vos_subTime (Some (mkTimeval 5 999999)) (Some (mkTimeval 7 2)))
    (fun r => exists t, r = Some t /\ usec_normalized t) /\
  returns (vos_divTime (Some (mkTimeval 5 999999)) 3)
    (fun r => exists t, r = Some t /\ usec_normalized t) /\
  (returns (vos_mulTime (Some (mkTimeval 5 999999)) 3)
     (fun r => exists t, r = Some t /\ usec_normalized t)
   <-> 0 <= long (999999 * 3)) /\
  (999999 * 3 < 2147483648 -> 0 <= long (999999 * 3)).
Proof.
  apply (C4_add_sub_roundtrip_and_usec_range (mkTimeval 5 999999) (mkTimeval 7 2) 3).
  - unfold timeval_valid, in_long, usec_normalized. simpl. lia.
  - unfold timeval_valid, in_long, usec_normalized. simpl. lia.
  - unfold in_ulong. lia.
Defined.

(** C8: dividing a time value by 0 leaves both fields as they were and
    reports a parameter error to the logging sink; dividing by 1 leaves
    the time value as it was. *)
Theorem C8_divTime_by_zero_and_one (t : VOS_TIMEVAL_T) :
  timeval_wf t ->
  vos_divTime (Some t) 0 =
    Log VOS_LOG_ERROR "ERROR NULL pointer/parameter\n" [] (Ret (Some t)) /\
  vos_divTime (Some t) 1 = mret (Some t).
Proof.
  intros Ht. split; [reflexivity|].
  cbn. rewrite divTime_one by assumption. reflexivity.
Qed.

Lemma C8_divTime_by_zero_and_one_witness :
  vos_divTime (Some (mkTimeval (-3) 250000)) 0 =
    Log VOS_LOG_ERROR "ERROR NULL pointer/parameter\n" [] (Ret (Some (mkTimeval (-3) 250000))) /\
  vos_divTime (Some (mkTimeval (-3) 250000)) 1 = mret (Some (mkTimeval (-3) 250000)).
Proof.
  apply (C8_divTime_by_zero_and_one (mkTimeval (-3) 250000)).
  unfold timeval_wf, in_long. simpl. lia.
Defined.

(** C10: when at least one argument of compare is a null pointer the
    result is 0, the outcome for equal times, and nothing is logged; add
    and subtract, given the same pointers, log a parameter error. *)
Theorem C10_cmpTime_null_is_silent_zero (pTime pCmp : option VOS_TIMEVAL_T) :
  pTime = None \/ pCmp = None ->
  vos_cmpTime pTime pCmp = mret 0 /\
  (forall W (h : handler W) w, run h (vos_cmpTime pTime pCmp) w = ([], Returned 0, w)) /\
  vos_addTime pTime pCmp = Log VOS_LOG_ERROR "ERROR NULL pointer\n" [] (Ret pTime) /\
  vos_subTime pTime pCmp = Log VOS_LOG_ERROR "ERROR NULL pointer\n" [] (Ret pTime).
Proof.
  intros [-> | ->]; [destruct pCmp | destruct pTime]; repeat split; reflexivity.
Qed.

Lemma C10_cmpTime_null_is_silent_zero_witness :
  vos_cmpTime None (Some (mkTimeval 1 0)) = mret 0 /\
  (forall W (h : handler W) w,
     run h (vos_cmpTime None (Some (mkTimeval 1 0))) w = ([], Returned 0, w)) /\
  vos_addTime None (Some (mkTimeval 1 0)) = Log VOS_LOG_ERROR "ERROR NULL pointer\n" [] (Ret None) /\
  vos_subTime None (Some (mkTimeval 1 0)) = Log VOS_LOG_ERROR "ERROR NULL pointer\n" [] (Ret None).
Proof.
  apply (C10_cmpTime_null_is_silent_zero None (Some (mkTimeval 1 0))).
  left. reflexivity.
Defined.

(** ** Running programs *)

Section RunFacts.

Context {W : Type} (h : handler W).

Lemma run_bind {A B : Type} (p : prog A) (f : A -> prog B) (w : W) :
  run h (bind p f) w =
  match run h p w with
  | (tr, Returned a, w1) =>
      let '(tr2, o, w2) := run h (f a) w1 in ((tr ++ tr2)%list, o, w2)
  | (tr, Crashed e, w1) => (tr, Crashed e, w1)
  end.
Proof.
  revert w. induction p as [a|e|l s args k IH|X c k IH]; intros w; simpl.
  - destruct (run h (f a) w) as [[tr o] w']. reflexivity.
  - reflexivity.
  - rewrite IH. destruct (run h k w) as [[tr [a|e]] w1]; [|reflexivity].
    destruct (run h (f a) w1) as [[tr2 o] w2]. reflexivity.
  - destruct (h X c w) as [x w1]. rewrite IH.
    destruct (run h (k x) w1) as [[tr [a|e]] w2]; [|reflexivity].
    destruct (run h (f a) w2) as [[tr2 o] w3]. reflexivity.
Qed.

Lemma run_mbind {A B : Type} (p : prog A) (f : A -> prog B) (w : W) :
  run h (p ≫= f) w =
  match run h p w with
  | (tr, Returned a, w1) =>
      let '(tr2, o, w2) := run h (f a) w1 in ((tr ++ tr2)%list, o, w2)
  | (tr, Crashed e, w1) => (tr, Crashed e, w1)
  end.
Proof. apply run_bind. Qed.

Lemma run_call {X : Type} (c : native X) (w : W) :
  run h (call c) w = ([EvCall c (h _ c w).1], Returned (h _ c w).1, (h _ c w).2).
Proof. unfold call. simpl. destruct (h X c w) as [x w1]. reflexivity. Qed.

(** Reading the clock is one native call and cannot fail. *)
Lemma run_read_clock (w : W) :
  run h read_clock w =
  ([EvCall ftime32_s (h _ ftime32_s w).1], Returned (clock_value (h _ ftime32_s w).1),
   (h _ ftime32_s w).2).
Proof.
  unfold read_clock, clock_value. cbn.
  destruct (h _ ftime32_s w) as [[err cur] w1]. cbn.
  destruct (err =? 0); reflexivity.
Qed.

End RunFacts.

(** ** The cyclic scheduler *)

(** The clock delivers a normalized time value when it reports
    milliseconds below 1000. *)
Lemma clock_value_valid (answer : Z * timeb32) :
  0 <= millitm answer.2 < 1000 -> timeval_valid (clock_value answer).
Proof.
  intros Hm. unfold clock_value, timeval_valid, usec_normalized.
  destruct (answer.1 =? 0); simpl.
  - split; [apply long_in_long|].
    unfold uint16. rewrite Z.mod_small by lia.
    rewrite long_id by (unfold in_long; lia). lia.
  - unfold in_long. lia.
Qed.

(** A turn reads the clock, calls the thread function, reads the clock
    again and goes on with the difference of the two readings. *)
Lemma cyclic_turn_run {W : Type} (h : handler W) (w : W) (interval pFunction pArguments : Z) :
  let a1 := h _ ftime32_s w in
  let a2 := h _ (thread_function pFunction pArguments) a1.2 in
  let a3 := h _ ftime32_s a2.2 in
  run h (cyclic_turn interval pFunction pArguments) w =
  let '(tr, o, w') :=
    run h (waitingTime ← cyclic_waitingTime interval
                           (TimeOps.subTime (clock_value a3.1) (clock_value a1.1));
           vos_threadDelay waitingTime;; mret waitingTime) a3.2 in
  (EvCall ftime32_s a1.1 :: EvCall (thread_function pFunction pArguments) a2.1
     :: EvCall ftime32_s a3.1 :: tr, o, w').
Proof.
  intros a1 a2 a3. unfold cyclic_turn.
  rewrite run_mbind, run_read_clock. fold a1.
  rewrite run_mbind, run_call. fold a2.
  rewrite run_mbind, run_read_clock. fold a3.
  destruct (run h _ a3.2) as [[tr o] w']. reflexivity.
Qed.

(** The scenario of a 10000 microsecond interval, on the whole turn: a
    thread function that takes 3 ms is followed by a sleep of 7 ms; one
    that takes 15 ms is followed by the overrun error, a wait of 0 and no
    sleep ([vos_threadDelay] refuses delays below 1 ms with a warning). *)
Example cyclic_turn_3ms :
  run (busy_env 3) (cyclic_turn 10000 1 0) 1999 =
  ([EvCall ftime32_s (0, mkTimeb 1 999); EvCall (thread_function 1 0) tt;
    EvCall ftime32_s (0, mkTimeb 2 2); EvCall (Sleep 7) tt],
   Returned 7000, 2009).
Proof. vm_compute. reflexivity. Qed.

Example cyclic_turn_15ms :
  run (busy_env 15) (cyclic_turn 10000 1 0) 1999 =
  ([EvCall ftime32_s (0, mkTimeb 1 999); EvCall (thread_function 1 0) tt;
    EvCall ftime32_s (0, mkTimeb 2 14);
    EvLog VOS_LOG_ERROR "cyclic thread with interval %d usec was running  %d usec\n"
      [ArgInt 10000; ArgInt 15000];
    EvLog VOS_LOG_WARNING "Win: thread delays < 1ms are not supported!\n" []],
   Returned 0, 2014).
Proof. vm_compute. reflexivity. Qed.

(** The waiting time from the two clock readings of a turn, by cases. *)
Lemma cyclic_waitingTime_cases (interval : Z) (priorCall afterCall : VOS_TIMEVAL_T) :
  in_ulong interval -> timeval_valid priorCall -> timeval_valid afterCall ->
  let elapsed := TimeOps.subTime afterCall priorCall in
  let execMicros := tv_sec elapsed * 1000000 + tv_usec elapsed in
  (0 <= tv_sec elapsed <= 4293 ->
   (execMicros <= interval ->
    cyclic_waitingTime interval elapsed = mret (interval - execMicros)) /\
   (execMicros > interval ->
    cyclic_waitingTime interval elapsed =
      Log VOS_LOG_ERROR "cyclic thread with interval %d usec was running  %d usec\n"
        [ArgInt interval; ArgInt execMicros] (Ret 0))) /\
  (tv_sec elapsed > 4293 ->
   cyclic_waitingTime interval elapsed =
     Log VOS_LOG_ERROR
       "cyclic thread with interval %d usec exceeded time out by running %d sec\n"
       [ArgInt interval; ArgInt (tv_sec elapsed)] (Ret 0)) /\
  cyclic_waitingTime 10000 (mkTimeval 0 3000) = mret 7000 /\
  cyclic_waitingTime 10000 (mkTimeval 0 15000) =
    Log VOS_LOG_ERROR "cyclic thread with interval %d usec was running  %d usec\n"
      [ArgInt 10000; ArgInt 15000] (Ret 0).
Proof.
  intros Hi Hp Ha elapsed execMicros.
  pose proof (subTime_normalized _ _ Ha Hp) as Hu. fold elapsed in Hu.
  unfold usec_normalized, in_ulong in *.
  split; [|split; [|split; reflexivity]].
  - intros Hs.
    assert (Hexec :
      ulong (ulong (ulong (ulong (tv_sec elapsed) * MSECS_PER_SEC) * USECS_PER_MSEC)
             + ulong (tv_usec elapsed)) = execMicros).
    { unfold MSECS_PER_SEC, USECS_PER_MSEC, execMicros.
      rewrite (ulong_id (tv_sec elapsed)) by (unfold in_ulong; lia).
      rewrite (ulong_id (tv_sec elapsed * 1000)) by (unfold in_ulong; lia).
      rewrite (ulong_id (tv_sec elapsed * 1000 * 1000)) by (unfold in_ulong; lia).
      rewrite (ulong_id (tv_usec elapsed)) by (unfold in_ulong; lia).
      rewrite ulong_id by (unfold in_ulong; lia). lia. }
    unfold cyclic_waitingTime. rewrite Hexec.
    destruct (Z.leb_spec (tv_sec elapsed) MAXSEC_FOR_USECPRESENTATION) as [_|Hgt];
      [|unfold MAXSEC_FOR_USECPRESENTATION in Hgt; lia].
    split; intros Hcmp.
    + destruct (Z.gtb_spec execMicros interval); [lia|].
      rewrite ulong_id by (unfold in_ulong, execMicros in *; lia). reflexivity.
    + destruct (Z.gtb_spec execMicros interval); [reflexivity | lia].
  - intros Hs. unfold cyclic_waitingTime.
    destruct (Z.leb_spec (tv_sec elapsed) MAXSEC_FOR_USECPRESENTATION) as [Hle|_];
      [unfold MAXSEC_FOR_USECPRESENTATION in Hle; lia | reflexivity].
Qed.

(** The waiting time is computed without a native call, and lies between
    0 and the interval. *)
Lemma cyclic_waitingTime_bounded (interval : Z) (elapsed : VOS_TIMEVAL_T) :
  in_ulong interval ->
  exists wt, 0 <= wt <= interval /\
    (cyclic_waitingTime interval elapsed = mret wt \/
     exists fmt args, cyclic_waitingTime interval elapsed = Log VOS_LOG_ERROR fmt args (Ret wt) /\ wt = 0).
Proof.
  intros Hi. unfold in_ulong in Hi. unfold cyclic_waitingTime.
  destruct (tv_sec elapsed <=? MAXSEC_FOR_USECPRESENTATION).
  - match goal with |- context [?e >? interval] => set (execTime := e) end.
    assert (He : in_ulong execTime) by apply ulong_in_ulong. unfold in_ulong in He.
    destruct (Z.gtb_spec execTime interval).
    + exists 0. split; [lia|]. right. eexists _, _. split; reflexivity.
    + exists (interval - execTime). split; [lia|]. left.
      rewrite ulong_id by (unfold in_ulong; lia). reflexivity.
  - exists 0. split; [lia|]. right. eexists _, _. split; reflexivity.
Qed.

(** One turn under any environment. *)
Lemma cyclic_turn_bounded {W : Type} (h : handler W) (w : W) (interval pFunction pArguments : Z) :
  in_ulong interval ->
  exists tr wt w',
    run h (cyclic_turn interval pFunction pArguments) w = (tr, Returned wt, w') /\
    0 <= wt <= interval /\
    sleeps tr = (if wt <? 1000 then [] else [wt / 1000]) /\
    length (filter (fun e => is_thread_function e = true) tr) = 1%nat.
Proof.
  intros Hi. pose proof (cyclic_turn_run h w interval pFunction pArguments) as Hrun.
  cbv zeta in Hrun. rewrite Hrun. clear Hrun.
  set (a1 := h _ ftime32_s w). set (a2 := h _ (thread_function pFunction pArguments) a1.2).
  set (a3 := h _ ftime32_s a2.2).
  destruct (cyclic_waitingTime_bounded interval
              (TimeOps.subTime (clock_value a3.1) (clock_value a1.1)) Hi)
    as (wt & Hwt & [Hc | (fmt & args & Hc & Hz)]); rewrite Hc; unfold vos_threadDelay.
  - cbn. destruct (Z.ltb_spec wt 1000) as [Hlt|Hge]; cbn.
    + eexists _, wt, _. split; [reflexivity|]. split; [assumption|]. split; [|reflexivity].
      cbn. destruct (Z.ltb_spec wt 1000); [reflexivity | lia].
    + destruct (h _ (Sleep (wt / 1000)) a3.2) as [[] w4]. cbn.
      eexists _, wt, _. split; [reflexivity|]. split; [assumption|]. split; [|reflexivity].
      cbn. destruct (Z.ltb_spec wt 1000); [lia | reflexivity].
  - subst wt. cbn. eexists _, 0, _. split; [reflexivity|]. split; [lia|].
    split; reflexivity.
Qed.

(** C3: in every turn of the cyclic scheduler, under every environment
    whose clock reports milliseconds below 1000, with [elapsed] the end
    time minus the start time as [vos_subTime] computes it: when
    [0 <= elapsed.seconds <= 4293] the run time in microseconds is
    [elapsed.seconds * 1000000 + elapsed.microseconds]; the wait is the
    interval minus that when it does not exceed the interval, with no
    error logged, and 0 with the overrun logged as an error when it does;
    when the seconds exceed 4293 the wait is 0 with an error logged.  The
    wait is what the turn hands to [vos_threadDelay].  With interval 10000,
    a run time of 3000 gives the wait 7000 and a run time of 15000 gives
    the wait 0 and a logged overrun. *)
Theorem C3_cyclic_turn_waiting_time {W : Type} (h : handler W) (w : W)
    (interval pFunction pArguments : Z) :
  in_ulong interval ->
  let a1 := h _ ftime32_s w in
  let a2 := h _ (thread_function pFunction pArguments) a1.2 in
  let a3 := h _ ftime32_s a2.2 in
  0 <= millitm a1.1.2 < 1000 ->
  0 <= millitm a3.1.2 < 1000 ->
  let elapsed := TimeOps.subTime (clock_value a3.1) (clock_value a1.1) in
  let execMicros := tv_sec elapsed * 1000000 + tv_usec elapsed in
  exists tr wt w',
    run h (cyclic_turn interval pFunction pArguments) w = (tr, Returned wt, w') /\
    sleeps tr = (if wt <? 1000 then [] else [wt / 1000]) /\
    (0 <= tv_sec elapsed <= 4293 -> execMicros <= interval ->
     wt = interval - execMicros /\ errors_logged tr = []) /\
    (0 <= tv_sec elapsed <= 4293 -> execMicros > interval ->
     wt = 0 /\
     errors_logged tr =
       [EvLog VOS_LOG_ERROR "cyclic thread with interval %d usec was running  %d usec\n"
          [ArgInt interval; ArgInt execMicros]]) /\
    (tv_sec elapsed > 4293 ->
     wt = 0 /\
     errors_logged tr =
       [EvLog VOS_LOG_ERROR
          "cyclic thread with interval %d usec exceeded time out by running %d sec\n"
          [ArgInt interval; ArgInt (tv_sec elapsed)]]) /\
    (interval = 10000 -> execMicros = 3000 -> wt = 7000 /\ errors_logged tr = []) /\
    (interval = 10000 -> execMicros = 15000 ->
     wt = 0 /\
     errors_logged tr =
       [EvLog VOS_LOG_ERROR "cyclic thread with interval %d usec was running  %d usec\n"
          [ArgInt 10000; ArgInt 15000]]).
Proof.
  intros Hi a1 a2 a3 Hm1 Hm3 elapsed execMicros.
  pose proof (clock_value_valid a1.1 Hm1) as Hv1.
  pose proof (clock_value_valid a3.1 Hm3) as Hv3.
  pose proof (subTime_normalized _ _ Hv3 Hv1) as Hu. fold elapsed in Hu.
  unfold usec_normalized in Hu.
  destruct (cyclic_waitingTime_cases interval (clock_value a1.1) (clock_value a3.1) Hi Hv1 Hv3)
    as (Hin & Hbig & _ & _).
  cbv zeta in Hin, Hbig. fold elapsed in Hin, Hbig. fold execMicros in Hin.
  destruct (cyclic_turn_bounded h w interval pFunction pArguments Hi)
    as (tr & wt & w' & Hrun & _ & Hsl & _).
  exists tr, wt, w'. split; [exact Hrun|]. split; [exact Hsl|].
  pose proof (cyclic_turn_run h w interval pFunction pArguments) as Ht.
  cbv zeta in Ht. fold a1 in Ht. fold a2 in Ht. fold a3 in Ht. fold elapsed in Ht.
  rewrite Ht in Hrun. clear Ht Hsl. unfold vos_threadDelay in Hrun.
  assert (Hfit : 0 <= tv_sec elapsed <= 4293 -> execMicros <= interval ->
                 wt = interval - execMicros /\ errors_logged tr = []).
  { intros Hs Hle. destruct (Hin Hs) as [Heq _]. rewrite (Heq Hle) in Hrun.
    remember (interval - execMicros) as wtv eqn:Ewt. clear - Hrun.
    cbn in Hrun. destruct (wtv <? 1000); cbn in Hrun.
    - injection Hrun as <- <- _. split; reflexivity.
    - destruct (h _ (Sleep (wtv / 1000)) a3.2) as [[] w4]. cbn in Hrun.
      injection Hrun as <- <- _. split; reflexivity. }
  assert (Hover : 0 <= tv_sec elapsed <= 4293 -> execMicros > interval ->
                  wt = 0 /\
                  errors_logged tr =
                    [EvLog VOS_LOG_ERROR
                       "cyclic thread with interval %d usec was running  %d usec\n"
                       [ArgInt interval; ArgInt execMicros]]).
  { intros Hs Hgt. destruct (Hin Hs) as [_ Heq]. rewrite (Heq Hgt) in Hrun.
    remember execMicros as em eqn:Eem. clear - Hrun.
    cbn in Hrun. injection Hrun as <- <- _. split; reflexivity. }
  split; [exact Hfit|]. split; [exact Hover|]. split; [|split].
  - intros Hs. rewrite (Hbig Hs) in Hrun.
    remember (tv_sec elapsed) as es eqn:Ees. clear - Hrun.
    cbn in Hrun. injection Hrun as <- <- _. split; reflexivity.
  - intros -> He. destruct Hfit as [Hw Hl]; [unfold execMicros in He; lia | lia |].
    split; [lia | exact Hl].
  - intros -> He. destruct Hover as [Hw Hl]; [unfold execMicros in He; lia | lia |].
    split; [exact Hw | rewrite Hl, He; reflexivity].
Qed.

Lemma C3_cyclic_turn_waiting_time_witness :
  let a1 := busy_env 3 _ ftime32_s 1999 in
  let a2 := busy_env 3 _ (thread_function 1 0) a1.2 in
  let a3 := busy_env 3 _ ftime32_s a2.2 in
  let elapsed := TimeOps.subTime (clock_value a3.1) (clock_value a1.1) in
  let execMicros := tv_sec elapsed * 1000000 + tv_usec elapsed in
  exists tr wt w',
    run (busy_env 3) (cyclic_turn 10000 1 0) 1999 = (tr, Returned wt, w') /\
    sleeps tr = (if wt <? 1000 then [] else [wt / 1000]) /\
    (0 <= tv_sec elapsed <= 4293 -> execMicros <= 10000 ->
     wt = 10000 - execMicros /\ errors_logged tr = []) /\
    (0 <= tv_sec elapsed <= 4293 -> execMicros > 10000 ->
     wt = 0 /\
     errors_logged tr =
       [EvLog VOS_LOG_ERROR "cyclic thread with interval %d usec was running  %d usec\n"
          [ArgInt 10000; ArgInt execMicros]]) /\
    (tv_sec elapsed > 4293 ->
     wt = 0 /\
     errors_logged tr =
       [EvLog VOS_LOG_ERROR
          "cyclic thread with interval %d usec exceeded time out by running %d sec\n"
          [ArgInt 10000; ArgInt (tv_sec elapsed)]]) /\
    (10000 = 10000 -> execMicros = 3000 -> wt = 7000 /\ errors_logged tr = []) /\
    (10000 = 10000 -> execMicros = 15000 ->
     wt = 0 /\
     errors_logged tr =
       [EvLog VOS_LOG_ERROR "cyclic thread with interval %d usec was running  %d usec\n"
          [ArgInt 10000; ArgInt 15000]]).
Proof.
  apply (C3_cyclic_turn_waiting_time (busy_env 3) 1999 10000 1 0).
  - unfold in_ulong. lia.
  - vm_compute. split; [discriminate | reflexivity].
  - vm_compute. split; [discriminate | reflexivity].
Defined.

(** ** Threads *)

(** C1, at the priority 1 the code fails on: with the module initialised,
    handle and name pointers given and interval 0, a successful
    [CreateThread] is followed by a read of the band table at index
    [1 / 36 - 1 = -1], outside its 7 entries; the priorities 36, 72, 108,
    144, 180, 216 and 255 select the 7 bands in their order. *)
Theorem C1_priority_1_reads_outside_band_table :
  band_index 1 = -1 /\
  array_read prioMap (band_index 1) = Crash (IndexOutOfBounds (-1)) /\
  map band_index [36; 72; 108; 144; 180; 216; 255] = [0; 1; 2; 3; 4; 5; 6] /\
  map (fun p => array_read prioMap (band_index p)) [36; 72; 108; 144; 180; 216; 255]
    = map Ret prioMap /\
  forall (W : Type) (h : handler W) (w : W) (c pThread : Z) (name : string)
         (policy : VOS_THREAD_POLICY_T) (stackSize pFunction pArguments : Z),
    let hThread :=
      (h _ (CreateThread (if stackSize =? 0 then cDefaultStackSize else stackSize)
                         pFunction pArguments) w).1 in
    (run h (vos_threadCreate (mkState true c) (Some pThread) (Some name) policy
                             1 0 stackSize pFunction pArguments) w).1.2
    = if hThread =? NULL
      then Returned (VOS_THREAD_ERR, Some NULL)
      else Crashed (IndexOutOfBounds (-1)).
Proof.
  repeat split; try reflexivity.
  intros W h w c pThread name policy stackSize pFunction pArguments hThread.
  unfold vos_threadCreate. cbn [vosThreadInitialised negb].
  change (0 >? 0) with false. cbv iota.
  rewrite run_mbind, run_call. fold hThread. cbn [fst snd].
  destruct (hThread =? NULL).
  - reflexivity.
  - destruct policy; reflexivity.
Qed.

(** C5, as stated, fails for delay (and for self): before [vos_threadInit]
    a delay of 1000 microseconds sleeps for a millisecond and returns
    [VOS_NO_ERR]. *)
Lemma C5_delay_ignores_the_flag :
  vosThreadInitialised initial_state = false /\
  thread_call initial_state (OpDelay 1000) = Call (Sleep 1) (fun _ => Ret (VOS_NO_ERR, None)) /\
  thread_call initial_state (OpDelay 1000) <> mret (VOS_INIT_ERR, out_pointer (OpDelay 1000)) /\
  thread_call initial_state (OpSelf (Some NULL))
    = Call GetCurrentThread (fun h => Ret (VOS_NO_ERR, Some h)).
Proof.
  repeat split; try reflexivity. intros H. discriminate H.
Qed.

(** C5, amended: before [vos_threadInit] or after [vos_threadTerm], create,
    terminate and isActive return the uninitialized error and do nothing
    else (no log, no native call, the handle pointer left as it was); self
    and delay do not look at the flag and do what they do when the module
    is initialised. *)
Theorem C5_uninitialised_thread_calls (st : vos_state) (op : thread_op) :
  st = initial_state \/ (exists st', st = vos_threadTerm st') \/ vosThreadInitialised st = false ->
  match op with
  | OpCreate _ _ _ _ _ _ _ _ | OpTerminate _ | OpIsActive _ =>
      thread_call st op = mret (VOS_INIT_ERR, out_pointer op)
  | OpSelf _ | OpDelay _ =>
      thread_call st op = thread_call (vos_threadInit st).2 op
  end.
Proof.
  intros H.
  assert (Hf : vosThreadInitialised st = false).
  { destruct H as [-> | [[st' ->] | H]]; [reflexivity | reflexivity | assumption]. }
  destruct op; unfold thread_call, vos_threadCreate, vos_threadTerminate, vos_threadIsActive;
    try rewrite Hf; reflexivity.
Qed.

Lemma C5_uninitialised_thread_calls_witness :
  thread_call (vos_threadTerm (vos_threadInit initial_state).2) (OpTerminate 77)
    = mret (VOS_INIT_ERR, out_pointer (OpTerminate 77)).
Proof.
  apply (C5_uninitialised_thread_calls (vos_threadTerm (vos_threadInit initial_state).2)
           (OpTerminate 77)).
  right. left. exists (vos_threadInit initial_state).2. reflexivity.
Defined.

(** ** Semaphores *)

(** C2, at the null handle the code fails on: for every time-out,
    [vos_semaTake] logs the error and then reads [sema->semaphore] through
    the null pointer; it does not return [VOS_NOINIT_ERR], under any
    environment. *)
Theorem C2_semaTake_null_is_dereferenced (mem : vos_memory) (timeout : Z) :
  vos_semaTake mem NULL timeout =
    Log VOS_LOG_ERROR "vos_semaTake() ERROR invalid parameter 'sema' == NULL\n" []
      (Crash NullDereference) /\
  forall (W : Type) (h : handler W) (w : W),
    (run h (vos_semaTake mem NULL timeout) w).1.2 = Crashed NullDereference /\
    (run h (vos_semaTake mem NULL timeout) w).1.2 <> Returned VOS_NOINIT_ERR.
Proof.
  split; [reflexivity|]. intros W h w. split; [reflexivity | discriminate].
Qed.

(** C6, on the code as it is: with a valid handle [vos_semaGive] always
    returns, but it logs its error exactly when the native release did not
    fail, and logs nothing when the release failed. *)
Theorem C6_semaGive_logs_on_success
    {W : Type} (h : handler W) (w : W) (mem : vos_memory) (sema : Z) (s : VOS_SEMA) :
  sema <> NULL -> semas mem !! sema = Some s ->
  let r := (h _ (ReleaseSemaphore (semaphore s) 1) w).1 in
  (run h (vos_semaGive mem sema) w).1.2 = Returned tt /\
  (errors_logged (run h (vos_semaGive mem sema) w).1.1 <> [] <-> native_failed r = false).
Proof.
  intros Hn Hs r. unfold vos_semaGive, load.
  destruct (Z.eqb_spec sema NULL) as [|_]; [contradiction|].
  rewrite Hs. cbn. fold r. destruct (h _ (ReleaseSemaphore (semaphore s) 1) w) as [r' w1] eqn:E.
  subst r. cbn. unfold native_failed. destruct (r' =? 0); cbn.
  - split; [reflexivity|]. split; [intros H; contradiction | discriminate].
  - split; [reflexivity|]. split; [reflexivity | discriminate].
Qed.

Lemma C6_semaGive_logs_on_success_witness :
  let mem := mkMemory ∅ {[ 64 := mkSema 5 ]} in
  (run quiet_env (vos_semaGive mem 64) tt).1.2 = Returned tt /\
  (errors_logged (run quiet_env (vos_semaGive mem 64) tt).1.1 <> [] <-> native_failed 1 = false).
Proof.
  intros mem.
  apply (C6_semaGive_logs_on_success quiet_env tt mem 64 (mkSema 5)).
  - unfold NULL. lia.
  - reflexivity.
Defined.

(** ** Mutexes *)

Lemma mutex_invalid_mismatch (mem : vos_memory) (pMutex : Z) :
  mutex_tag_mismatch mem pMutex -> mutex_invalid mem pMutex = mret true.
Proof.
  intros [-> | [m [Hm Htag]]]; [reflexivity|].
  unfold mutex_invalid, load. destruct (pMutex =? NULL); [reflexivity|].
  rewrite Hm. cbn. destruct (Z.eqb_spec (magicNo m) cMutextMagic); [contradiction | reflexivity].
Qed.

Lemma mutex_invalid_match (mem : vos_memory) (pMutex : Z) (m : VOS_MUTEX) :
  pMutex <> NULL -> mutexes mem !! pMutex = Some m -> magicNo m = cMutextMagic ->
  mutex_invalid mem pMutex = mret false.
Proof.
  intros Hn Hm Htag. unfold mutex_invalid, load.
  destruct (Z.eqb_spec pMutex NULL); [contradiction|].
  rewrite Hm. cbn. rewrite Htag. reflexivity.
Qed.

Lemma mutex_mismatch_rejected (mem : vos_memory) (pMutex : Z) :
  mutex_tag_mismatch mem pMutex -> mutex_rejected mem pMutex.
Proof.
  intros H. apply mutex_invalid_mismatch in H.
  unfold mutex_rejected, vos_mutexLock, vos_mutexTryLock, vos_mutexUnlock, vos_mutexDelete.
  rewrite H. repeat split; reflexivity.
Qed.

(** A rejected handle reaches no native call, whatever the environment. *)
Lemma mutex_rejected_no_native_call {W : Type} (h : handler W) (w : W)
    (mem : vos_memory) (pMutex : Z) :
  mutex_rejected mem pMutex ->
  native_calls (run h (vos_mutexLock mem pMutex) w).1.1 = [] /\
  native_calls (run h (vos_mutexTryLock mem pMutex) w).1.1 = [] /\
  native_calls (run h (vos_mutexUnlock mem pMutex) w).1.1 = [] /\
  native_calls (run h (vos_mutexDelete mem pMutex) w).1.1 = [].
Proof.
  intros (-> & -> & -> & ->). repeat split; reflexivity.
Qed.

(** Deleting a mutex with a matching tag: the native close decides. *)
Lemma run_mutexDelete {W : Type} (h : handler W) (w : W)
    (mem : vos_memory) (pMutex : Z) (m : VOS_MUTEX) :
  pMutex <> NULL -> mutexes mem !! pMutex = Some m -> magicNo m = cMutextMagic ->
  (run h (vos_mutexDelete mem pMutex) w).1.2 =
  Returned (if native_failed (h _ (CloseHandle (mutexId m)) w).1
            then mem
            else mkMemory (<[pMutex := mkMutex (mutexId m) 0]> (mutexes mem)) (semas mem)).
Proof.
  intros Hn Hm Htag. unfold vos_mutexDelete.
  rewrite (mutex_invalid_match mem pMutex m) by assumption.
  unfold load. destruct (Z.eqb_spec pMutex NULL); [contradiction|].
  rewrite Hm. cbn. destruct (h _ (CloseHandle (mutexId m)) w) as [r w1]. cbn.
  unfold native_failed. destruct (r =? 0); cbn.
  - destruct (h _ GetLastError w1) as [e w2]. reflexivity.
  - reflexivity.
Qed.

(** C7: lock, tryLock, unlock and delete test the integrity tag and answer
    a null handle or a handle whose tag differs from the sentinel with the
    invalid-parameter outcome, without a native call; a delete whose
    native close succeeds clears the tag, so that all four operations
    reject the handle from then on; a delete whose native close fails
    leaves the mutex, tag included, as it was. *)
Theorem C7_mutex_integrity_tag {W : Type} (h : handler W) (w : W)
    (mem : vos_memory) (pMutex : Z) :
  (mutex_tag_mismatch mem pMutex -> mutex_rejected mem pMutex) /\
  (forall m : VOS_MUTEX,
     pMutex <> NULL -> mutexes mem !! pMutex = Some m -> magicNo m = cMutextMagic ->
     exists mem' : vos_memory,
       (run h (vos_mutexDelete mem pMutex) w).1.2 = Returned mem' /\
       (native_failed (h _ (CloseHandle (mutexId m)) w).1 = false ->
        mutexes mem' !! pMutex = Some (mkMutex (mutexId m) 0) /\
        mutex_rejected mem' pMutex) /\
       (native_failed (h _ (CloseHandle (mutexId m)) w).1 = true -> mem' = mem)).
Proof.
  split; [apply mutex_mismatch_rejected|].
  intros m Hn Hm Htag. eexists. split; [apply (run_mutexDelete h w mem pMutex m); assumption|].
  split; intros Hr; rewrite Hr; [|reflexivity].
  assert (Hl : mutexes (mkMemory (<[pMutex := mkMutex (mutexId m) 0]> (mutexes mem)) (semas mem))
               !! pMutex = Some (mkMutex (mutexId m) 0)).
  { cbn. apply lookup_insert_eq. }
  split; [exact Hl|].
  apply mutex_mismatch_rejected. right. eexists. split; [exact Hl|].
  cbn. unfold cMutextMagic. lia.
Qed.

Lemma C7_mutex_integrity_tag_witness :
  let mem := mkMemory {[ 64 := mkMutex 1 cMutextMagic ]} ∅ in
  mutex_rejected mem NULL /\
  exists mem' : vos_memory,
    (run quiet_env (vos_mutexDelete mem 64) tt).1.2 = Returned mem' /\
    mutexes mem' !! 64 = Some (mkMutex 1 0) /\
    mutex_rejected mem' 64.
Proof.
  intros mem.
  destruct (C7_mutex_integrity_tag quiet_env tt mem NULL) as [Hnull _].
  destruct (C7_mutex_integrity_tag quiet_env tt mem 64) as [_ Hdel].
  split; [apply Hnull; left; reflexivity|].
  destruct (Hdel (mkMutex 1 cMutextMagic)) as (mem' & Hrun & Hok & _).
  - unfold NULL. lia.
  - reflexivity.
  - reflexivity.
  - exists mem'. split; [exact Hrun|]. apply Hok. reflexivity.
Defined.

(** ** The identity generator *)

Lemma counter_bytes (c : Z) :
  in_uint16 c -> uint8 (Z.land c 0xFF) + 256 * uint8 (Z.shiftr c 8) = c.
Proof.
  unfold in_uint16, uint8. intros Hc.
  change 0xFF with (Z.ones 8). rewrite Z.land_ones by lia.
  rewrite Z.shiftr_div_pow2 by lia. change (2 ^ 8) with 256.
  rewrite Z.mod_mod by lia.
  rewrite (Z.mod_small (c / 256)) by (split; [apply Z.div_pos; lia | apply Z.div_lt_upper_bound; lia]).
  pose proof (Z.div_mod c 256). lia.
Qed.

(** One call: it returns, bytes 8 and 9 of the identifier hold the counter
    it found, and it leaves the counter one higher, modulo [2^16]. *)
Lemma run_getUuid {W : Type} (h : handler W) (w : W) (st : vos_state) (pUuID : list Z) :
  length pUuID = 16%nat -> in_uint16 (count st) ->
  exists tr u w',
    run h (vos_getUuid st pUuID) w
      = (tr, Returned (u, mkState (vosThreadInitialised st) (uint16 (count st + 1))), w') /\
    length u = 16%nat /\
    uuid_counter u = count st.
Proof.
  intros Hlen Hc. unfold vos_getUuid.
  rewrite run_mbind, run_read_clock. cbv zeta.
  rewrite run_mbind, run_call.
  destruct (h _ vos_sockGetMAC (h _ ftime32_s w).2) as [[ret mac] w2]. cbn [fst snd].
  set (cur := clock_value (h _ ftime32_s w).1).
  match goal with |- context [list_inserts 10 mac ?b] => set (buf := b) end.
  assert (Hbuf : length buf = 16%nat) by (unfold buf; rewrite !length_insert; exact Hlen).
  assert (H8 : buf !! 8%nat = Some (uint8 (Z.land (count st) 0xFF))).
  { unfold buf. rewrite list_lookup_insert_ne by lia.
    apply list_lookup_insert_eq. rewrite !length_insert. lia. }
  assert (H9 : buf !! 9%nat = Some (uint8 (Z.shiftr (count st) 8))).
  { unfold buf. apply list_lookup_insert_eq. rewrite !length_insert. lia. }
  assert (Hu : length (list_inserts 10 mac buf) = 16%nat /\
               uuid_counter (list_inserts 10 mac buf) = count st).
  { split; [rewrite length_inserts; exact Hbuf|].
    unfold uuid_counter. rewrite !list_lookup_total_alt.
    rewrite !list_lookup_inserts_lt by lia. rewrite H8, H9. cbn [default].
    apply counter_bytes. exact Hc. }
  clearbody buf.
  destruct Hu as [Hu1 Hu2].
  destruct ret; cbn; repeat eexists; eauto.
Qed.

(** Successive calls: all return, and the identifier of call number [i]
    carries the counter [count + i] modulo [2^16]. *)
Lemma run_getUuid_calls {W : Type} (h : handler W) (bufs : list (list Z)) :
  forall (w : W) (st : vos_state),
    Forall (fun b => length b = 16%nat) bufs -> in_uint16 (count st) ->
    exists tr ids st' w',
      run h (getUuid_calls st bufs) w = (tr, Returned (ids, st'), w') /\
      length ids = length bufs /\
      (forall (i : nat) (u : list Z),
         ids !! i = Some u -> uuid_counter u = uint16 (count st + Z.of_nat i)) /\
      count st' = uint16 (count st + Z.of_nat (length bufs)).
Proof.
  induction bufs as [|b bs IH]; intros w st Hall Hc.
  - exists [], [], st, w. repeat split.
    + intros i u Hi. destruct i; discriminate Hi.
    + unfold in_uint16 in Hc. unfold uint16. cbn.
      rewrite Z.add_0_r, Z.mod_small by lia. reflexivity.
  - inversion Hall as [|? ? Hb Hbs]; subst.
    destruct (run_getUuid h w st b Hb Hc) as (tr1 & u & w1 & Hrun & _ & Hcnt).
    set (st1 := mkState (vosThreadInitialised st) (uint16 (count st + 1))) in *.
    assert (Hc1 : in_uint16 (count st1)).
    { unfold in_uint16, st1, uint16. cbn. apply Z.mod_pos_bound. lia. }
    destruct (IH w1 st1 Hbs Hc1) as (tr2 & ids & st2 & w2 & Hrun2 & Hlen & Hidx & Hcount).
    exists (tr1 ++ tr2)%list, (u :: ids), st2, w2.
    split; [|split; [|split]].
    + cbn [getUuid_calls]. rewrite run_mbind, Hrun. cbn.
      rewrite run_mbind, Hrun2. cbn. rewrite app_nil_r. reflexivity.
    + cbn. rewrite Hlen. reflexivity.
    + intros [|i] v Hv; cbn in Hv.
      * injection Hv as <-. rewrite Hcnt. unfold in_uint16 in Hc. unfold uint16.
        rewrite Z.add_0_r, Z.mod_small by lia. reflexivity.
      * rewrite (Hidx i v Hv). unfold st1, uint16. cbn [count].
        rewrite Zplus_mod_idemp_l. f_equal. lia.
    + rewrite Hcount. unfold st1, uint16. cbn [count length].
      rewrite Zplus_mod_idemp_l. f_equal. lia.
Qed.

(** Fewer than [2^16] counters in a row are pairwise different. *)
Lemma counters_distinct (c : Z) (i j : nat) :
  (i < j)%nat -> Z.of_nat j < 65536 ->
  uint16 (c + Z.of_nat i) <> uint16 (c + Z.of_nat j).
Proof.
  intros Hij Hj. unfold uint16. intros Heq.
  pose proof (Z.div_mod (c + Z.of_nat i) 65536).
  pose proof (Z.div_mod (c + Z.of_nat j) 65536).
  pose proof (Z.mod_pos_bound (c + Z.of_nat i) 65536).
  lia.
Qed.

(** C9: 10000 successive calls of the identity generator return 10000
    pairwise different identifiers, whatever the clock and the lookup of
    the hardware address answer: bytes 8 and 9 of the identifier of call
    [i] hold the counter the first call found plus [i], modulo [2^16]. *)
Theorem C9_ten_thousand_uuids_distinct {W : Type} (h : handler W) (w : W)
    (st : vos_state) (bufs : list (list Z)) :
  Z.of_nat (length bufs) = 10000 ->
  Forall (fun b => length b = 16%nat) bufs ->
  in_uint16 (count st) ->
  exists tr ids st' w',
    run h (getUuid_calls st bufs) w = (tr, Returned (ids, st'), w') /\
    Z.of_nat (length ids) = 10000 /\
    NoDup ids /\
    (forall (i : nat) (u : list Z),
       ids !! i = Some u -> uuid_counter u = uint16 (count st + Z.of_nat i)) /\
    count st' = uint16 (count st + 10000).
Proof.
  intros Hlen Hall Hc.
  destruct (run_getUuid_calls h bufs w st Hall Hc)
    as (tr & ids & st' & w' & Hrun & Hl & Hidx & Hcount).
  exists tr, ids, st', w'. rewrite Hlen in Hcount. rewrite <- Hl in Hlen.
  split; [exact Hrun|]. split; [exact Hlen|]. split; [|split; [exact Hidx | exact Hcount]].
  apply NoDup_alt. intros i j u Hi Hj.
  pose proof (lookup_lt_Some _ _ _ Hi) as Li. pose proof (lookup_lt_Some _ _ _ Hj) as Lj.
  pose proof (Hidx i u Hi) as Ci. pose proof (Hidx j u Hj) as Cj.
  destruct (Nat.lt_trichotomy i j) as [Hlt | [Heq | Hgt]]; [|exact Heq|].
  - exfalso. apply (counters_distinct (count st) i j); [lia | lia | congruence].
  - exfalso. apply (counters_distinct (count st) j i); [lia | lia | congruence].
Qed.

Lemma C9_ten_thousand_uuids_distinct_witness :
  let bufs := replicate (Z.to_nat 10000) (replicate 16 0) in
  exists tr ids st' w',
    run quiet_env (getUuid_calls initial_state bufs) tt = (tr, Returned (ids, st'), w') /\
    Z.of_nat (length ids) = 10000 /\
    NoDup ids /\
    (forall (i : nat) (u : list Z),
       ids !! i = Some u -> uuid_counter u = uint16 (count initial_state + Z.of_nat i)) /\
    count st' = uint16 (count initial_state + 10000).
Proof.
  intros bufs.
  apply (C9_ten_thousand_uuids_distinct quiet_env tt initial_state bufs).
  - unfold bufs. rewrite length_replicate. lia.
  - unfold bufs. apply Forall_replicate. reflexivity.
  - unfold in_uint16. simpl. lia.
Defined.

(** * Further properties *)

(** ** Time arithmetic *)

Section TimeArithmetic.

Import TimeOps.

Lemma long_add_long_l (a b : Z) : long (long a + b) = long (a + b).
Proof.
  destruct (long_spec a) as [k Hk]. destruct (long_spec (a + b)) as [j Hj].
  apply (long_unique _ _ (k - j)); [apply long_in_long | lia].
Qed.

Lemma long_sub_long_l (a b : Z) : long (long a - b) = long (a - b).
Proof.
  destruct (long_spec a) as [k Hk]. destruct (long_spec (a - b)) as [j Hj].
  apply (long_unique _ _ (k - j)); [apply long_in_long | lia].
Qed.

Lemma long_congr (x y k : Z) : x = y + 4294967296 * k -> long x = long y.
Proof.
  intros ->. destruct (long_spec y) as [j Hj].
  apply (long_unique _ _ (k - j)); [apply long_in_long | lia].
Qed.

Lemma long_mul_ulong (a k : Z) : long (ulong (ulong a * k)) = long (a * k).
Proof.
  rewrite long_ulong. destruct (ulong_spec a) as [i Hi]. destruct (long_spec (a * k)) as [j Hj].
  apply (long_unique _ _ (i * k - j)); [apply long_in_long | lia].
Qed.

(** What the carry loop computes from a non-negative microsecond field. *)
Lemma carry_loop_spec (sec usec : Z) :
  in_long sec -> 0 <= usec -> in_long usec ->
  carry_loop sec usec = mkTimeval (long (sec + usec / 1000000)) (usec mod 1000000).
Proof.
  intros Hs Hpos Hr.
  assert (Hn : exists n : nat, usec < 1000000 * (Z.of_nat n + 1)).
  { exists (Z.to_nat usec). lia. }
  destruct Hn as [n Hn]. revert sec usec Hs Hpos Hr Hn.
  induction n as [|n IH]; intros sec usec Hs Hpos Hr Hn.
  - rewrite carry_loop_done by lia.
    rewrite Z.div_small, Z.mod_small, Z.add_0_r, long_id by (assumption || lia). reflexivity.
  - destruct (Z_le_gt_dec 1000000 usec) as [Hge|Hlt].
    + rewrite carry_loop_step by assumption.
      unfold in_long in Hr. rewrite (long_id (usec - 1000000)) by (unfold in_long; lia).
      rewrite IH; [|apply long_in_long | lia | unfold in_long; lia | lia].
      rewrite long_add_long_l.
      assert (Hd : usec / 1000000 = (usec - 1000000) / 1000000 + 1).
      { replace usec with (usec - 1000000 + 1 * 1000000) at 1 by lia. apply Z.div_add. lia. }
      assert (Hm : usec mod 1000000 = (usec - 1000000) mod 1000000).
      { replace usec with (usec - 1000000 + 1 * 1000000) at 1 by lia. apply Z_mod_plus_full. }
      rewrite Hd, Hm. f_equal. f_equal. lia.
    + rewrite carry_loop_done by lia.
      rewrite Z.div_small, Z.mod_small, Z.add_0_r, long_id by (assumption || lia). reflexivity.
Qed.

(** [vos_addTime] on valid time values, in closed form. *)
Lemma addTime_spec (a b : VOS_TIMEVAL_T) :
  timeval_valid a -> timeval_valid b ->
  addTime a b = mkTimeval (long (tv_sec a + tv_sec b + (tv_usec a + tv_usec b) / 1000000))
                          ((tv_usec a + tv_usec b) mod 1000000).
Proof.
  intros [_ Ha] [_ Hb]. unfold usec_normalized in *. unfold addTime.
  rewrite (long_id (tv_usec a + tv_usec b)) by (unfold in_long; lia).
  rewrite carry_loop_spec; [|apply long_in_long | lia | unfold in_long; lia].
  rewrite long_add_long_l. reflexivity.
Qed.

Lemma addTime_valid (a b : VOS_TIMEVAL_T) :
  timeval_valid a -> timeval_valid b -> timeval_valid (addTime a b).
Proof.
  intros Ha Hb. split; [|apply addTime_normalized; assumption].
  rewrite addTime_spec by assumption. apply long_in_long.
Qed.

Lemma subTime_valid (a b : VOS_TIMEVAL_T) :
  timeval_valid a -> timeval_valid b -> timeval_valid (subTime a b).
Proof.
  intros Ha Hb. split; [apply subTime_in_long | apply subTime_normalized; assumption].
Qed.

(** [vos_subTime] on valid time values, in closed form. *)
Lemma subTime_spec (a b : VOS_TIMEVAL_T) :
  timeval_valid a -> timeval_valid b ->
  subTime a b =
  if tv_usec b >? tv_usec a
  then mkTimeval (long (tv_sec a - 1 - tv_sec b)) (tv_usec a + 1000000 - tv_usec b)
  else mkTimeval (long (tv_sec a - tv_sec b)) (tv_usec a - tv_usec b).
Proof.
  intros [_ Ha] [_ Hb]. unfold usec_normalized in *. unfold subTime.
  destruct (Z.gtb_spec (tv_usec b) (tv_usec a)).
  - rewrite (long_id (tv_usec a + 1000000)) by (unfold in_long; lia).
    rewrite long_sub_long_l.
    rewrite (long_id (tv_usec a + 1000000 - tv_usec b)) by (unfold in_long; lia). reflexivity.
  - rewrite (long_id (tv_usec a - tv_usec b)) by (unfold in_long; lia). reflexivity.
Qed.

(** X1: adding valid time values adds their lengths in microseconds, as
    long as the sum of the seconds, with the carry, fits the seconds
    field; the result is valid again. *)
Theorem X1_addTime_adds_microseconds (a b : VOS_TIMEVAL_T) :
  timeval_valid a -> timeval_valid b ->
  in_long (tv_sec a + tv_sec b) -> in_long (tv_sec a + tv_sec b + 1) ->
  to_usec (addTime a b) = to_usec a + to_usec b /\ timeval_valid (addTime a b).
Proof.
  intros Ha Hb H0 H1. split; [|apply addTime_valid; assumption].
  rewrite addTime_spec by assumption. destruct Ha as [_ Ha], Hb as [_ Hb].
  unfold usec_normalized, in_long, to_usec in *. cbn [tv_sec tv_usec].
  pose proof (Z.div_mod (tv_usec a + tv_usec b) 1000000).
  assert (0 <= (tv_usec a + tv_usec b) / 1000000 < 2).
  { split; [apply Z.div_pos; lia | apply Z.div_lt_upper_bound; lia]. }
  rewrite long_id by (unfold in_long; lia). lia.
Qed.

Lemma X1_addTime_adds_microseconds_witness :
  to_usec (addTime (mkTimeval 1 700000) (mkTimeval 2 600000))
    = to_usec (mkTimeval 1 700000) + to_usec (mkTimeval 2 600000) /\
  timeval_valid (addTime (mkTimeval 1 700000) (mkTimeval 2 600000)).
Proof.
  apply (X1_addTime_adds_microseconds (mkTimeval 1 700000) (mkTimeval 2 600000));
    unfold timeval_valid, usec_normalized, in_long; simpl; lia.
Defined.

(** X2: on valid time values [vos_addTime] is commutative and associative,
    overflow of the seconds included, and adding (0, 0) changes nothing. *)
Theorem X2_addTime_commutative_associative (a b c : VOS_TIMEVAL_T) :
  timeval_valid a -> timeval_valid b -> timeval_valid c ->
  addTime a b = addTime b a /\
  addTime (addTime a b) c = addTime a (addTime b c) /\
  addTime a (mkTimeval 0 0) = a.
Proof.
  intros Ha Hb Hc. split; [|split].
  - rewrite !addTime_spec by assumption.
    rewrite (Z.add_comm (tv_sec a)), (Z.add_comm (tv_usec a)). reflexivity.
  - pose proof (addTime_valid a b Ha Hb) as Hab. pose proof (addTime_valid b c Hb Hc) as Hbc.
    rewrite (addTime_spec (addTime a b) c), (addTime_spec a (addTime b c)) by assumption.
    rewrite (addTime_spec a b), (addTime_spec b c) by assumption. cbn [tv_sec tv_usec].
    destruct Ha as [_ Ha], Hb as [_ Hb], Hc as [_ Hc]. unfold usec_normalized in *.
    set (ua := tv_usec a) in *. set (ub := tv_usec b) in *. set (uc := tv_usec c) in *.
    destruct (long_spec (tv_sec a + tv_sec b + (ua + ub) / 1000000)) as [k1 H1].
    destruct (long_spec (tv_sec b + tv_sec c + (ub + uc) / 1000000)) as [k2 H2].
    f_equal.
    + apply (long_congr _ _ (k1 - k2)). rewrite H1, H2.
      pose proof (Z.div_mod (ua + ub) 1000000). pose proof (Z.mod_pos_bound (ua + ub) 1000000).
      pose proof (Z.div_mod (ub + uc) 1000000). pose proof (Z.mod_pos_bound (ub + uc) 1000000).
      pose proof (Z.div_mod ((ua + ub) mod 1000000 + uc) 1000000).
      pose proof (Z.mod_pos_bound ((ua + ub) mod 1000000 + uc) 1000000).
      pose proof (Z.div_mod (ua + (ub + uc) mod 1000000) 1000000).
      pose proof (Z.mod_pos_bound (ua + (ub + uc) mod 1000000) 1000000).
      lia.
    + rewrite Zplus_mod_idemp_l, Zplus_mod_idemp_r. f_equal. lia.
  - rewrite addTime_spec; [|assumption | unfold timeval_valid, usec_normalized, in_long; simpl; lia].
    destruct a as [sa ua]. destruct Ha as [Hs Hu]. unfold usec_normalized in Hu. simpl in *.
    rewrite !Z.add_0_r, Z.div_small, Z.mod_small, Z.add_0_r, long_id by (assumption || lia).
    reflexivity.
Qed.

Lemma X2_addTime_commutative_associative_witness :
  addTime (mkTimeval 2147483647 999999) (mkTimeval 1 1)
    = addTime (mkTimeval 1 1) (mkTimeval 2147483647 999999) /\
  addTime (addTime (mkTimeval 2147483647 999999) (mkTimeval 1 1)) (mkTimeval (-5) 999999)
    = addTime (mkTimeval 2147483647 999999) (addTime (mkTimeval 1 1) (mkTimeval (-5) 999999)) /\
  addTime (mkTimeval 2147483647 999999) (mkTimeval 0 0) = mkTimeval 2147483647 999999.
Proof.
  apply (X2_addTime_commutative_associative
           (mkTimeval 2147483647 999999) (mkTimeval 1 1) (mkTimeval (-5) 999999));
    unfold timeval_valid, usec_normalized, in_long; simpl; lia.
Defined.

(** X3: subtracting valid time values subtracts their lengths in
    microseconds, as long as the difference of the seconds, with the
    borrow, fits the seconds field; the seconds of the difference are
    negative exactly when the first time is the earlier one, which is when
    [vos_cmpTime] answers -1. *)
Theorem X3_subTime_subtracts_microseconds (a b : VOS_TIMEVAL_T) :
  timeval_valid a -> timeval_valid b ->
  in_long (tv_sec a - tv_sec b) -> in_long (tv_sec a - tv_sec b - 1) ->
  to_usec (subTime a b) = to_usec a - to_usec b /\
  timeval_valid (subTime a b) /\
  (tv_sec (subTime a b) < 0 <-> to_usec a < to_usec b) /\
  (tv_sec (subTime a b) < 0 <-> cmpTime a b = -1).
Proof.
  intros Ha Hb H0 H1.
  pose proof (subTime_valid a b Ha Hb) as Hv.
  rewrite subTime_spec in * by assumption.
  destruct Ha as [_ Ha], Hb as [_ Hb]. unfold usec_normalized, in_long, to_usec in *.
  unfold cmpTime, timercmp_gt, timercmp_lt.
  destruct (Z.gtb_spec (tv_usec b) (tv_usec a)) as [Hu|Hu]; cbn [tv_sec tv_usec].
  - rewrite long_id in Hv |- * by (unfold in_long; lia).
    split; [lia|]. split; [exact Hv|]. split; [lia|].
    destruct (Z.gtb_spec (tv_sec a) (tv_sec b)); cbn [orb].
    + split; [lia | discriminate].
    + destruct (Z.eqb_spec (tv_sec a) (tv_sec b)); cbn [andb].
      * destruct (Z.gtb_spec (tv_usec a) (tv_usec b)); [lia|].
        destruct (Z.ltb_spec (tv_sec a) (tv_sec b)); [lia|]. cbn [orb].
        destruct (Z.ltb_spec (tv_usec a) (tv_usec b)); [|lia]. split; [reflexivity | lia].
      * destruct (Z.ltb_spec (tv_sec a) (tv_sec b)); [|lia]. cbn [orb]. split; [reflexivity | lia].
  - rewrite long_id in Hv |- * by (unfold in_long; lia).
    split; [lia|]. split; [exact Hv|]. split; [lia|].
    destruct (Z.gtb_spec (tv_sec a) (tv_sec b)); cbn [orb].
    + split; [lia | discriminate].
    + destruct (Z.eqb_spec (tv_sec a) (tv_sec b)); cbn [andb].
      * destruct (Z.gtb_spec (tv_usec a) (tv_usec b)).
        -- split; [lia | discriminate].
        -- destruct (Z.ltb_spec (tv_sec a) (tv_sec b)); [lia|]. cbn [orb].
           destruct (Z.ltb_spec (tv_usec a) (tv_usec b)); [lia|]. split; [lia | discriminate].
      * destruct (Z.ltb_spec (tv_sec a) (tv_sec b)); [|lia]. cbn [orb]. split; [reflexivity | lia].
Qed.

Lemma X3_subTime_subtracts_microseconds_witness :
  to_usec (subTime (mkTimeval 5 100) (mkTimeval 7 200))
    = to_usec (mkTimeval 5 100) - to_usec (mkTimeval 7 200) /\
  timeval_valid (subTime (mkTimeval 5 100) (mkTimeval 7 200)) /\
  (tv_sec (subTime (mkTimeval 5 100) (mkTimeval 7 200)) < 0
   <-> to_usec (mkTimeval 5 100) < to_usec (mkTimeval 7 200)) /\
  (tv_sec (subTime (mkTimeval 5 100) (mkTimeval 7 200)) < 0
   <-> cmpTime (mkTimeval 5 100) (mkTimeval 7 200) = -1).
Proof.
  apply (X3_subTime_subtracts_microseconds (mkTimeval 5 100) (mkTimeval 7 200));
    unfold timeval_valid, usec_normalized, in_long; simpl; lia.
Defined.

(** X4: subtracting a valid time value and adding it again gives back the
    valid time value one started from, overflow of the seconds included. *)
Theorem X4_sub_add_roundtrip (a b : VOS_TIMEVAL_T) :
  timeval_valid a -> timeval_valid b -> addTime (subTime a b) b = a.
Proof.
  intros Ha Hb. rewrite addTime_spec by (try apply subTime_valid; assumption).
  rewrite subTime_spec by assumption.
  destruct a as [sa ua], b as [sb ub]. destruct Ha as [Hsa Ha], Hb as [Hsb Hb].
  unfold usec_normalized in *. cbn [tv_sec tv_usec] in *.
  destruct (Z.gtb_spec ub ua); cbn [tv_sec tv_usec].
  - replace (ua + 1000000 - ub + ub) with (ua + 1 * 1000000) by lia.
    rewrite Z.div_add, Z_mod_plus_full, Z.div_small, Z.mod_small by lia.
    f_equal. destruct (long_spec (sa - 1 - sb)) as [k Hk].
    apply (long_unique _ _ k); [assumption | lia].
  - replace (ua - ub + ub) with ua by lia.
    rewrite Z.div_small, Z.mod_small by lia.
    f_equal. destruct (long_spec (sa - sb)) as [k Hk].
    apply (long_unique _ _ k); [assumption | lia].
Qed.

Lemma X4_sub_add_roundtrip_witness :
  addTime (subTime (mkTimeval (-2147483648) 0) (mkTimeval 3 999999)) (mkTimeval 3 999999)
    = mkTimeval (-2147483648) 0.
Proof.
  apply (X4_sub_add_roundtrip (mkTimeval (-2147483648) 0) (mkTimeval 3 999999));
    unfold timeval_valid, usec_normalized, in_long; simpl; lia.
Defined.

Lemma ulong_long (z : Z) : ulong (long z) = ulong z.
Proof.
  destruct (long_spec z) as [k Hk]. rewrite Hk. unfold ulong.
  rewrite Z.mul_comm. apply Z_mod_plus_full.
Qed.

(** X5: multiplying a valid time value by [k] multiplies its length in
    microseconds by [k], as long as the product of the microseconds fits
    the microsecond field and the seconds, with the carry, fit the seconds
    field; the result is valid again. *)
Theorem X5_mulTime_multiplies_microseconds (t : VOS_TIMEVAL_T) (k : Z) :
  timeval_valid t -> in_ulong k ->
  tv_usec t * k <= 2147483647 ->
  in_long (tv_sec t * k + tv_usec t * k / 1000000) ->
  to_usec (mulTime t k) = k * to_usec t /\ timeval_valid (mulTime t k).
Proof.
  intros [Hs Hu] Hk Hfit Hsec. unfold usec_normalized, in_ulong in *.
  unfold mulTime. rewrite !long_mul_ulong.
  assert (Hp : 0 <= tv_usec t * k) by nia.
  rewrite (long_id (tv_usec t * k)) by (unfold in_long; lia).
  rewrite carry_loop_spec; [|apply long_in_long | lia | unfold in_long; lia].
  rewrite long_add_long_l, long_id by assumption.
  unfold to_usec, timeval_valid, usec_normalized. cbn [tv_sec tv_usec].
  pose proof (Z.div_mod (tv_usec t * k) 1000000).
  pose proof (Z.mod_pos_bound (tv_usec t * k) 1000000).
  split; [lia | split; [assumption | lia]].
Qed.

Lemma X5_mulTime_multiplies_microseconds_witness :
  to_usec (mulTime (mkTimeval 3 750000) 7) = 7 * to_usec (mkTimeval 3 750000) /\
  timeval_valid (mulTime (mkTimeval 3 750000) 7).
Proof.
  apply (X5_mulTime_multiplies_microseconds (mkTimeval 3 750000) 7);
    unfold timeval_valid, usec_normalized, in_long, in_ulong;
    first [simpl; lia | vm_compute; split; discriminate].
Defined.

(** X6: dividing a valid time value whose seconds are not negative
    divides its length in microseconds, rounding down, as long as the
    remainder of the seconds, taken to microseconds, fits 32 bits together
    with the microseconds, which every divisor from 1 to 4294 guarantees;
    the result is valid again. *)
Theorem X6_divTime_divides_microseconds (t : VOS_TIMEVAL_T) (k : Z) :
  timeval_valid t -> 0 <= tv_sec t -> 0 < k ->
  k <= 4294 \/ tv_sec t mod k * 1000000 + tv_usec t < 4294967296 ->
  to_usec (divTime t k) = to_usec t / k /\ timeval_valid (divTime t k).
Proof.
  intros [Hs Hu] Hpos Hk Hfit. unfold usec_normalized, in_long in *. unfold divTime.
  rewrite (ulong_id (tv_sec t)) by (unfold in_ulong; lia).
  pose proof (Z.mod_pos_bound (tv_sec t) k ltac:(lia)) as Ht.
  pose proof (Z.div_mod (tv_sec t) k ltac:(lia)) as Hdm.
  set (temp := tv_sec t mod k) in *. set (q := tv_sec t / k) in *.
  assert (Hq : 0 <= q <= tv_sec t).
  { split; [apply Z.div_pos; lia | apply Z.div_le_upper_bound; nia]. }
  set (x := tv_usec t + temp * 1000000).
  assert (Hx : 0 <= x < k * 1000000) by (unfold x; nia).
  assert (Hx32 : x < 4294967296) by (unfold x; destruct Hfit; lia).
  assert (Hux : ulong (if temp >? 0
                       then long (ulong (ulong (tv_usec t) + ulong (temp * 1000000)))
                       else tv_usec t) = x).
  { rewrite (ulong_id (tv_usec t)) by (unfold in_ulong; lia).
    destruct (Z.gtb_spec temp 0).
    - rewrite (ulong_id (temp * 1000000)) by (unfold in_ulong, x in *; lia).
      fold x. rewrite ulong_long, !(ulong_id x) by (unfold in_ulong; lia). reflexivity.
    - rewrite ulong_id by (unfold in_ulong; lia). unfold x. lia. }
  rewrite Hux.
  assert (Hxq : 0 <= x / k < 1000000).
  { split; [apply Z.div_pos; lia | apply Z.div_lt_upper_bound; lia]. }
  rewrite (long_id q), (long_id (x / k)) by (unfold in_long; lia).
  unfold to_usec, timeval_valid, usec_normalized, in_long. cbn [tv_sec tv_usec].
  split; [|lia].
  replace (tv_sec t * 1000000 + tv_usec t) with (q * 1000000 * k + x) by (unfold x; lia).
  rewrite Z.div_add_l by lia. reflexivity.
Qed.

Lemma X6_divTime_divides_microseconds_witness :
  to_usec (divTime (mkTimeval 10 500000) 4) = to_usec (mkTimeval 10 500000) / 4 /\
  timeval_valid (divTime (mkTimeval 10 500000) 4).
Proof.
  apply (X6_divTime_divides_microseconds (mkTimeval 10 500000) 4);
    unfold timeval_valid, usec_normalized, in_long; simpl; lia.
Defined.

(** X7: the seconds are divided as an unsigned number, so a time value
    with negative seconds divided by 2 or more comes out with seconds that
    are not negative: [2^32] is added to them before the division. *)
Theorem X7_divTime_loses_the_sign (t : VOS_TIMEVAL_T) (k : Z) :
  timeval_wf t -> tv_sec t < 0 -> 2 <= k -> in_ulong k ->
  tv_sec (divTime t k) = (tv_sec t + 4294967296) / k /\
  0 <= tv_sec (divTime t k).
Proof.
  intros [Hs _] Hneg Hk Hku. unfold in_long, in_ulong in *. unfold divTime. cbn [tv_sec].
  assert (Hu : ulong (tv_sec t) = tv_sec t + 4294967296).
  { destruct (ulong_spec (tv_sec t)) as [j Hj].
    pose proof (ulong_in_ulong (tv_sec t)) as Hr. unfold in_ulong in Hr. lia. }
  rewrite Hu.
  assert (Hq : 0 <= (tv_sec t + 4294967296) / k < 2147483648).
  { split; [apply Z.div_pos; lia | apply Z.div_lt_upper_bound; lia]. }
  rewrite long_id by (unfold in_long; lia). split; [reflexivity | lia].
Qed.

Lemma X7_divTime_loses_the_sign_witness :
  tv_sec (divTime (mkTimeval (-1) 0) 2) = (-1 + 4294967296) / 2 /\
  0 <= tv_sec (divTime (mkTimeval (-1) 0) 2).
Proof.
  apply (X7_divTime_loses_the_sign (mkTimeval (-1) 0) 2);
    unfold timeval_wf, in_long, in_ulong; simpl; lia.
Defined.

(** X8: comparing in the other order negates the answer, the answer is
    one of -1, 0 and 1, and it is 0 exactly for equal time values. *)
Theorem X8_cmpTime_antisymmetric (a b : VOS_TIMEVAL_T) :
  cmpTime a b = - cmpTime b a /\
  (cmpTime a b = -1 \/ cmpTime a b = 0 \/ cmpTime a b = 1) /\
  (cmpTime a b = 0 <-> a = b).
Proof.
  destruct a as [sa ua], b as [sb ub].
  unfold cmpTime, timercmp_gt, timercmp_lt. cbn [tv_sec tv_usec].
  rewrite (Z.eqb_sym sb sa).
  destruct (Z.gtb_spec sa sb), (Z.ltb_spec sa sb), (Z.eqb_spec sa sb),
           (Z.gtb_spec sb sa), (Z.ltb_spec sb sa),
           (Z.gtb_spec ua ub), (Z.ltb_spec ua ub),
           (Z.gtb_spec ub ua), (Z.ltb_spec ub ua);
    try lia; cbn [orb andb];
    (split; [reflexivity | split; [auto|]]);
    (split; [intros Heq; try discriminate Heq; f_equal; lia
            | intros Heq; injection Heq as Hsec Husec; lia]).
Qed.

(** X9: on time values with normalized microseconds the comparison is the
    comparison of their lengths in microseconds. *)
Theorem X9_cmpTime_orders_microseconds (a b : VOS_TIMEVAL_T) :
  usec_normalized a -> usec_normalized b ->
  cmpTime a b = Z.sgn (to_usec a - to_usec b).
Proof.
  unfold usec_normalized, to_usec, cmpTime, timercmp_gt, timercmp_lt. intros Ha Hb.
  destruct (Z.gtb_spec (tv_sec a) (tv_sec b)); cbn [orb].
  - symmetry. apply Z.sgn_pos. lia.
  - destruct (Z.eqb_spec (tv_sec a) (tv_sec b)); cbn [andb].
    + destruct (Z.gtb_spec (tv_usec a) (tv_usec b)).
      * symmetry. apply Z.sgn_pos. lia.
      * destruct (Z.ltb_spec (tv_sec a) (tv_sec b)); [lia|]. cbn [orb].
        destruct (Z.ltb_spec (tv_usec a) (tv_usec b)).
        -- symmetry. apply Z.sgn_neg. lia.
        -- symmetry. apply Z.sgn_null. lia.
    + destruct (Z.ltb_spec (tv_sec a) (tv_sec b)); [|lia]. cbn [orb].
      symmetry. apply Z.sgn_neg. lia.
Qed.

Lemma X9_cmpTime_orders_microseconds_witness :
  cmpTime (mkTimeval 4 999999) (mkTimeval 5 0)
    = Z.sgn (to_usec (mkTimeval 4 999999) - to_usec (mkTimeval 5 0)).
Proof.
  apply (X9_cmpTime_orders_microseconds (mkTimeval 4 999999) (mkTimeval 5 0));
    unfold usec_normalized; simpl; lia.
Defined.

End TimeArithmetic.

(** ** The clock and the cyclic scheduler *)

(** X10: through a valid pointer [vos_getTime] makes one call of the
    clock and always stores a well formed time value, whatever was there
    before; its microseconds are whole milliseconds and never negative;
    it is (0, 0) when the clock call fails, and normalized when the clock
    reports less than 1000 milliseconds. *)
Theorem X10_getTime_stores_whole_milliseconds {W : Type} (h : handler W) (w : W)
    (old : VOS_TIMEVAL_T) :
  let answer := (h _ ftime32_s w).1 in
  let t := clock_value answer in
  run h (vos_getTime (Some old)) w = ([EvCall ftime32_s answer], Returned (Some t), (h _ ftime32_s w).2) /\
  timeval_wf t /\
  0 <= tv_usec t /\
  tv_usec t mod 1000 = 0 /\
  (answer.1 <> 0 -> t = mkTimeval 0 0) /\
  (answer.1 = 0 -> 0 <= millitm answer.2 < 1000 ->
   usec_normalized t /\ tv_usec t = millitm answer.2 * 1000).
Proof.
  intros answer t. split.
  - unfold vos_getTime. rewrite run_mbind, run_read_clock. reflexivity.
  - unfold t, clock_value, timeval_wf. destruct (Z.eqb_spec answer.1 0) as [E|E]; cbn [tv_sec tv_usec].
    + pose proof (Z.mod_pos_bound (millitm answer.2) 65536 ltac:(lia)) as Hm.
      unfold uint16. rewrite (long_id (_ * 1000)) by (unfold in_long; lia).
      split; [split; [apply long_in_long | unfold in_long; lia]|].
      split; [lia|]. split; [apply Z_mod_mult|]. split; [intros Hne; contradiction|].
      intros _ Hr. rewrite Z.mod_small by lia. unfold usec_normalized. cbn [tv_usec]. lia.
    + split; [unfold in_long; lia|]. split; [lia|]. split; [reflexivity|].
      split; [reflexivity | intros He; contradiction].
Qed.

Lemma X10_getTime_stores_whole_milliseconds_witness :
  let answer := (busy_env 0 _ ftime32_s 12345).1 in
  let t := clock_value answer in
  run (busy_env 0) (vos_getTime (Some (mkTimeval 7 7))) 12345
    = ([EvCall ftime32_s answer], Returned (Some t), (busy_env 0 _ ftime32_s 12345).2) /\
  usec_normalized t /\ tv_usec t = millitm answer.2 * 1000.
Proof.
  intros answer t.
  destruct (X10_getTime_stores_whole_milliseconds (busy_env 0) 12345 (mkTimeval 7 7))
    as (Hrun & _ & _ & _ & _ & Hn).
  split; [exact Hrun|]. apply Hn; [reflexivity | vm_compute; split; [discriminate | reflexivity]].
Defined.

(** X11: the first [n] turns of [vos_cyclicThread] all come back, under
    every environment: the thread function is called [n] times, every
    waiting time is between 0 and the interval, and the sleeps are those of
    the waiting times of 1000 microseconds or more, in order, each for the
    whole milliseconds of its waiting time; a waiting time below 1000
    microseconds is not slept at all. *)
Theorem X11_cyclicThread_turns {W : Type} (h : handler W) (n : nat)
    (interval pFunction pArguments : Z) :
  in_ulong interval ->
  forall w : W, exists tr ws w',
    run h (vos_cyclicThread n interval pFunction pArguments) w = (tr, Returned ws, w') /\
    length ws = n /\
    Forall (fun wt => 0 <= wt <= interval) ws /\
    length (filter (fun e => is_thread_function e = true) tr) = n /\
    sleeps tr = omap (fun wt => if wt <? 1000 then None else Some (wt / 1000)) ws.
Proof.
  intros Hi. induction n as [|n IH]; intros w.
  - exists [], [], w. repeat split. constructor.
  - destruct (cyclic_turn_bounded h w interval pFunction pArguments Hi)
      as (tr1 & wt & w1 & Hrun1 & Hwt & Hsl & Hcnt).
    destruct (IH w1) as (tr2 & ws & w2 & Hrun2 & Hlen & Hall & Hcnt2 & Hsl2).
    exists (tr1 ++ tr2)%list, (wt :: ws), w2.
    split; [|split; [|split; [|split]]].
    + cbn [vos_cyclicThread]. rewrite run_mbind, Hrun1. cbn.
      rewrite run_mbind, Hrun2. cbn. rewrite app_nil_r. reflexivity.
    + cbn. rewrite Hlen. reflexivity.
    + constructor; assumption.
    + rewrite filter_app, length_app, Hcnt, Hcnt2. reflexivity.
    + unfold sleeps in *. rewrite omap_app, Hsl, Hsl2. simpl.
      destruct (wt <? 1000); reflexivity.
Qed.

Lemma X11_cyclicThread_turns_witness :
  exists tr ws w',
    run (busy_env 3) (vos_cyclicThread 5 10000 1 0) 0 = (tr, Returned ws, w') /\
    length ws = 5%nat /\
    Forall (fun wt => 0 <= wt <= 10000) ws /\
    length (filter (fun e => is_thread_function e = true) tr) = 5%nat /\
    sleeps tr = omap (fun wt => if wt <? 1000 then None else Some (wt / 1000)) ws.
Proof.
  apply (X11_cyclicThread_turns (busy_env 3) 5 10000 1 0).
  unfold in_ulong. lia.
Defined.

(** ** Thread creation *)

Lemma band_index_bounds (priority : Z) :
  0 <= priority ->
  36 * (band_index priority + 1) <= priority < 36 * (band_index priority + 2).
Proof.
  intros Hp. unfold band_index.
  pose proof (Z.div_mod priority 36 ltac:(lia)). pose proof (Z.mod_pos_bound priority 36 ltac:(lia)).
  lia.
Qed.

Lemma array_read_band (priority : Z) :
  36 <= priority <= 255 ->
  exists band, prioMap !! Z.to_nat (band_index priority) = Some band /\
               array_read prioMap (band_index priority) = Ret band.
Proof.
  intros Hp. pose proof (band_index_bounds priority ltac:(lia)) as Hb.
  assert (Hi : band_index priority = 0 \/ band_index priority = 1 \/ band_index priority = 2 \/
               band_index priority = 3 \/ band_index priority = 4 \/ band_index priority = 5 \/
               band_index priority = 6) by lia.
  destruct Hi as [E|[E|[E|[E|[E|[E|E]]]]]]; rewrite E; eexists; split; reflexivity.
Qed.

Lemma array_read_no_band (priority : Z) :
  0 < priority < 36 -> array_read prioMap (band_index priority) = Crash (IndexOutOfBounds (-1)).
Proof.
  intros Hp. pose proof (band_index_bounds priority ltac:(lia)) as Hb.
  assert (E : band_index priority = -1) by lia. rewrite E. reflexivity.
Qed.

(** X12: of the priorities 1 to 255 that reach the band table, 1 to 35
    read it at index -1, outside the table; 36 to 255 read one of its 7
    entries, band [k] being that of the priorities from [36 * (k + 1)] to
    [36 * (k + 2) - 1], so that bands never decrease with the priority
    and the top band is that of 252 to 255 only. *)
Theorem X12_band_boundaries (priority : Z) :
  0 < priority <= 255 ->
  (priority < 36 ->
   array_read prioMap (band_index priority) = Crash (IndexOutOfBounds (-1))) /\
  (36 <= priority ->
   0 <= band_index priority <= 6 /\
   36 * (band_index priority + 1) <= priority < 36 * (band_index priority + 2) /\
   (exists band, prioMap !! Z.to_nat (band_index priority) = Some band /\
                 array_read prioMap (band_index priority) = Ret band) /\
   (band_index priority = 6 <-> 252 <= priority) /\
   (forall higher, priority <= higher <= 255 -> band_index priority <= band_index higher)).
Proof.
  intros Hp. split.
  - intros Hlow. apply array_read_no_band. lia.
  - intros Hhigh. pose proof (band_index_bounds priority ltac:(lia)) as Hb.
    split; [lia|]. split; [exact Hb|]. split; [apply array_read_band; lia|].
    split; [lia|]. intros higher Hh.
    pose proof (band_index_bounds higher ltac:(lia)). lia.
Qed.

Lemma X12_band_boundaries_witness :
  0 <= band_index 251 <= 6 /\
  36 * (band_index 251 + 1) <= 251 < 36 * (band_index 251 + 2) /\
  (exists band, prioMap !! Z.to_nat (band_index 251) = Some band /\
                array_read prioMap (band_index 251) = Ret band) /\
  (band_index 251 = 6 <-> 252 <= 251) /\
  (forall higher, 251 <= higher <= 255 -> band_index 251 <= band_index higher).
Proof.
  destruct (X12_band_boundaries 251) as [_ H]; [lia|]. apply H. lia.
Defined.

Lemma run_ret_outcome {W A B : Type} (h : handler W) (w : W) (x : A) (k : A -> prog B) :
  (run h (mret x ≫= k) w).1.2 = (run h (k x) w).1.2.
Proof. reflexivity. Qed.

Lemma run_call_outcome {W X B : Type} (h : handler W) (w : W) (c : native X) (k : X -> prog B) :
  (run h (call c ≫= k) w).1.2 = (run h (k (h _ c w).1) (h _ c w).2).1.2.
Proof.
  cbn. destruct (h X c w) as [x w1]. cbn.
  destruct (run h (k x) w1) as [[tr o] w']. reflexivity.
Qed.

Lemma run_printLog_outcome {W B : Type} (h : handler W) (w : W)
    (lvl : VOS_LOG_T) (fmt : string) (args : list log_arg) (k : unit -> prog B) :
  (run h (vos_printLog lvl fmt args ≫= k) w).1.2 = (run h (k tt) w).1.2.
Proof. cbn. destruct (run h (k tt) w) as [[tr o] w']. reflexivity. Qed.

(** The step of [vos_threadCreate] that sets the priority, followed by
    its return, for the priorities whose table read lies in the table. *)
Lemma run_set_priority_band {W : Type} (h : handler W) (w : W) (hThread priority : Z)
    (v : VOS_ERR_T * option Z) :
  priority = 0 \/ 36 <= priority <= 255 ->
  exists tr w',
    run h ((if (priority >? 0) && (priority <=? 255)
            then nPriority ← array_read prioMap (band_index priority);
                 call (SetThreadPriority hThread nPriority);; mret tt
            else mret tt) ≫= (fun _ => mret v)) w = (tr, Returned v, w') /\
    priorities_set tr =
      (if priority =? 0 then []
       else match prioMap !! Z.to_nat (band_index priority) with
            | Some band => [(hThread, band)]
            | None => []
            end).
Proof.
  intros [-> | Hp].
  - exists [], w. split; reflexivity.
  - destruct (Z.gtb_spec priority 0) as [_|]; [|lia].
    destruct (Z.leb_spec priority 255) as [_|]; [|lia]. cbn [andb].
    destruct (Z.eqb_spec priority 0) as [|_]; [lia|].
    destruct (array_read_band priority Hp) as (band & -> & ->). cbn.
    destruct (h _ (SetThreadPriority hThread band) w) as [b w3].
    eexists _, _. split; reflexivity.
Qed.

(** X13: with the module initialised, both pointers given and a priority
    of 0 or from 36 to 255, [vos_threadCreate] refuses an interval above 0
    with [VOS_INIT_ERR] before any native call, reports a failed
    [CreateThread] with [VOS_THREAD_ERR], and otherwise returns
    [VOS_NO_ERR] with the new handle; on every error return the caller's
    handle is [NULL], whatever it held.  A created thread is given the
    band of its priority, once; with priority 0, or when no thread was
    created, no priority is set. *)
Theorem X13_threadCreate_outcomes {W : Type} (h : handler W) (w : W)
    (c old : Z) (name : string) (policy : VOS_THREAD_POLICY_T)
    (priority interval stackSize pFunction pArguments : Z) :
  priority = 0 \/ 36 <= priority <= 255 ->
  let hThread :=
    (h _ (CreateThread (if stackSize =? 0 then cDefaultStackSize else stackSize)
                       pFunction pArguments) w).1 in
  let r := run h (vos_threadCreate (mkState true c) (Some old) (Some name) policy
                                   priority interval stackSize pFunction pArguments) w in
  r.1.2 = (if interval >? 0 then Returned (VOS_INIT_ERR, Some NULL)
           else if hThread =? NULL then Returned (VOS_THREAD_ERR, Some NULL)
           else Returned (VOS_NO_ERR, Some hThread)) /\
  ((interval >? 0) = true -> native_calls r.1.1 = []) /\
  ((interval >? 0) = false -> hThread <> NULL ->
   priorities_set r.1.1 =
     (if priority =? 0 then []
      else match prioMap !! Z.to_nat (band_index priority) with
           | Some band => [(hThread, band)]
           | None => []
           end)) /\
  ((interval >? 0) = true \/ hThread = NULL -> priorities_set r.1.1 = []).
Proof.
  intros Hp hThread r. unfold r, vos_threadCreate. cbn [vosThreadInitialised negb].
  cbv iota. destruct (interval >? 0) eqn:Ei.
  - split; [reflexivity|]. split; [reflexivity|]. split; [discriminate|]. reflexivity.
  - rewrite run_mbind, run_call. fold hThread. cbn [fst snd].
    destruct (Z.eqb_spec hThread NULL) as [E|E].
    + split; [reflexivity|]. split; [discriminate|]. split; [contradiction | reflexivity].
    + match goal with |- context [run h _ ?w0] => set (w1 := w0) end.
      destruct (run_set_priority_band h w1 hThread priority (VOS_NO_ERR, Some hThread) Hp)
        as (tr & w' & Hrun & Hset).
      destruct policy; rewrite run_mbind; cbn [run mret prog_ret vos_printLog];
        rewrite Hrun; cbn [fst snd app];
        (split; [reflexivity|]); (split; [discriminate|]);
        (split; [intros _ _; exact Hset | intros [H|H]; [discriminate H | contradiction]]).
Qed.

Lemma X13_threadCreate_outcomes_witness :
  let r := run quiet_env (vos_threadCreate (mkState true 1) (Some 99) (Some "worker")
                            VOS_THREAD_POLICY_OTHER 100 0 0 1 0) tt in
  r.1.2 = Returned (VOS_NO_ERR, Some 1) /\
  priorities_set r.1.1 = [(1, THREAD_PRIORITY_LOWEST)].
Proof.
  intros r.
  destruct (X13_threadCreate_outcomes quiet_env tt 1 99 "worker" VOS_THREAD_POLICY_OTHER
              100 0 0 1 0) as (Ho & _ & Hs & _); [right; lia|].
  split; [exact Ho | apply Hs; [reflexivity | discriminate]].
Defined.

(** ** The layout of an identifier *)

Lemma byte_of_mask (x n : Z) :
  0 <= n -> Z.shiftr (Z.land x (Z.shiftl (Z.ones 8) n)) n = (x / 2 ^ n) mod 256.
Proof.
  intros Hn. rewrite Z.shiftr_land, Z.shiftr_shiftl_l, Z.sub_diag, Z.shiftl_0_r by lia.
  rewrite Z.land_ones, Z.shiftr_div_pow2 by lia. reflexivity.
Qed.

Lemma nibble_of_mask (x : Z) :
  Z.shiftr (Z.land x 0x0F000000) 24 = (x / 16777216) mod 16.
Proof.
  change 0x0F000000 with (Z.shiftl (Z.ones 4) 24).
  rewrite Z.shiftr_land, Z.shiftr_shiftl_l, Z.sub_diag, Z.shiftl_0_r by lia.
  rewrite Z.land_ones, Z.shiftr_div_pow2 by lia. reflexivity.
Qed.

Lemma uint8_mod (x : Z) : uint8 (x mod 256) = x mod 256.
Proof. unfold uint8. apply Z.mod_mod. lia. Qed.

(** Three bytes, lowest first, hold a number modulo [2^24]. *)
Lemma three_bytes (x : Z) :
  x mod 256 + 256 * ((x / 256) mod 256) + 65536 * ((x / 65536) mod 256) = x mod 16777216.
Proof.
  replace (x / 65536) with (x / 256 / 256) by (rewrite Z.div_div by lia; reflexivity).
  pose proof (Z.div_mod x 256 ltac:(lia)). pose proof (Z.mod_pos_bound x 256 ltac:(lia)).
  pose proof (Z.div_mod (x / 256) 256 ltac:(lia)).
  pose proof (Z.mod_pos_bound (x / 256) 256 ltac:(lia)).
  pose proof (Z.div_mod (x / 256 / 256) 256 ltac:(lia)).
  pose proof (Z.mod_pos_bound (x / 256 / 256) 256 ltac:(lia)).
  apply (Zmod_unique _ _ (x / 256 / 256 / 256)); lia.
Qed.

(** Four bytes, lowest first, hold a number below [2^32]. *)
Lemma four_bytes (x : Z) :
  0 <= x < 4294967296 ->
  x mod 256 + 256 * ((x / 256) mod 256) + 65536 * ((x / 65536) mod 256)
    + 16777216 * ((x / 16777216) mod 256) = x.
Proof.
  intros Hx. pose proof (three_bytes x) as H3.
  pose proof (Z.div_mod x 16777216 ltac:(lia)).
  assert (0 <= x / 16777216 < 256).
  { split; [apply Z.div_pos; lia | apply Z.div_lt_upper_bound; lia]. }
  rewrite (Z.mod_small (x / 16777216)) by lia. lia.
Qed.

Lemma version_nibble (y : Z) :
  0 <= y < 16 -> 4 <= Z.lor y 4 < 16 /\ Z.testbit (Z.lor y 4) 2 = true /\ Z.lor y 4 mod 256 = Z.lor y 4.
Proof.
  intros Hy.
  assert (E : y = 0 \/ y = 1 \/ y = 2 \/ y = 3 \/ y = 4 \/ y = 5 \/ y = 6 \/ y = 7 \/
              y = 8 \/ y = 9 \/ y = 10 \/ y = 11 \/ y = 12 \/ y = 13 \/ y = 14 \/ y = 15) by lia.
  repeat (destruct E as [E|E]; [subst y; vm_compute; repeat split; congruence|]).
  subst y; vm_compute; repeat split; congruence.
Qed.

(** One call, with the identifier written out: the ten bytes of the
    call's own, then what [vos_sockGetMAC] stored over the rest of the
    caller's array. *)
Lemma run_getUuid_layout {W : Type} (h : handler W) (w : W) (st : vos_state) (pUuID : list Z) :
  length pUuID = 16%nat ->
  let now := clock_value (h _ ftime32_s w).1 in
  let answer := (h _ vos_sockGetMAC (h _ ftime32_s w).2).1 in
  exists tr,
    run h (vos_getUuid st pUuID) w
    = (tr,
       Returned (list_inserts 10 answer.2 (uuid_head now (count st) ++ drop 10 pUuID),
                 mkState (vosThreadInitialised st) (uint16 (count st + 1))),
       (h _ vos_sockGetMAC (h _ ftime32_s w).2).2) /\
    errors_logged tr =
      match answer.1 with
      | VOS_NO_ERR => []
      | e => [EvLog VOS_LOG_ERROR "vos_sockGetMAC() failed (Err:%d)\n" [ArgErr e]]
      end.
Proof.
  intros Hlen now answer. unfold vos_getUuid.
  rewrite run_mbind, run_read_clock. cbv zeta. fold now.
  rewrite run_mbind, run_call. fold answer.
  do 16 (destruct pUuID as [|? pUuID]; [discriminate Hlen|]).
  destruct pUuID; [|discriminate Hlen].
  destruct answer as [ret mac]. cbn [fst snd].
  destruct ret; cbn; eexists; split; reflexivity.
Qed.

Lemma byte0 (x : Z) : uint8 (Z.land x 0xFF) = x mod 256.
Proof. change 0xFF with (Z.ones 8). rewrite Z.land_ones by lia. apply uint8_mod. Qed.

Lemma byte1 (x : Z) : uint8 (Z.shiftr (Z.land x 0xFF00) 8) = (x / 256) mod 256.
Proof.
  change 0xFF00 with (Z.shiftl (Z.ones 8) 8). rewrite byte_of_mask by lia. apply uint8_mod.
Qed.

Lemma byte2 (x : Z) : uint8 (Z.shiftr (Z.land x 0xFF0000) 16) = (x / 65536) mod 256.
Proof.
  change 0xFF0000 with (Z.shiftl (Z.ones 8) 16). rewrite byte_of_mask by lia. apply uint8_mod.
Qed.

Lemma byte3 (x : Z) : uint8 (Z.shiftr (Z.land x 0xFF000000) 24) = (x / 16777216) mod 256.
Proof.
  change 0xFF000000 with (Z.shiftl (Z.ones 8) 24). rewrite byte_of_mask by lia. apply uint8_mod.
Qed.

Lemma clock_value_usec_range (answer : Z * timeb32) :
  0 <= tv_usec (clock_value answer) < 4294967296.
Proof.
  unfold clock_value. destruct (answer.1 =? 0); cbn [tv_usec]; [|lia].
  pose proof (Z.mod_pos_bound (millitm answer.2) 65536 ltac:(lia)).
  unfold uint16. rewrite long_id by (unfold in_long; lia). lia.
Qed.

(** The bytes of [uuid_head] survive the storing of the hardware address. *)
Lemma uuid_head_lookup (now : VOS_TIMEVAL_T) (cnt : Z) (mac rest : list Z) (i : nat) :
  (i < 10)%nat ->
  list_inserts 10 mac (uuid_head now cnt ++ rest) !!! i = uuid_head now cnt !!! i.
Proof.
  intros Hi. rewrite list_lookup_total_inserts_lt by lia.
  apply lookup_total_app_l. cbn. lia.
Qed.

(** X14: the identifier keeps the time of the call readable: bytes 0 to 3
    are the microseconds, lowest byte first, bytes 4 to 6 the lowest 24
    bits of the seconds; each of the first ten bytes is a byte (0 to
    255), whatever the clock and the hardware address lookup answer. *)
Theorem X14_uuid_time_fields {W : Type} (h : handler W) (w : W) (st : vos_state) (pUuID : list Z) :
  length pUuID = 16%nat ->
  let now := clock_value (h _ ftime32_s w).1 in
  exists tr u st' w',
    run h (vos_getUuid st pUuID) w = (tr, Returned (u, st'), w') /\
    u !!! 0%nat + 256 * u !!! 1%nat + 65536 * u !!! 2%nat + 16777216 * u !!! 3%nat
      = tv_usec now /\
    u !!! 4%nat + 256 * u !!! 5%nat + 65536 * u !!! 6%nat = tv_sec now mod 16777216 /\
    (forall i : nat, (i < 10)%nat -> 0 <= u !!! i < 256).
Proof.
  intros Hlen now.
  destruct (run_getUuid_layout h w st pUuID Hlen) as (tr & Hrun & _). fold now in Hrun.
  eexists _, _, _, _. split; [exact Hrun|].
  rewrite !uuid_head_lookup by lia. cbn [uuid_head lookup_total list_lookup_total].
  rewrite !byte0, !byte1, !byte2, !byte3.
  split; [apply four_bytes, clock_value_usec_range|]. split; [apply three_bytes|].
  intros i Hi. rewrite uuid_head_lookup by lia.
  do 10 (destruct i as [|i]; [cbn; unfold uint8; apply Z.mod_pos_bound; lia|]). lia.
Qed.

Lemma X14_uuid_time_fields_witness :
  let now := clock_value (busy_env 0 _ ftime32_s 4321).1 in
  exists tr u st' w',
    run (busy_env 0) (vos_getUuid initial_state (replicate 16 0)) 4321
      = (tr, Returned (u, st'), w') /\
    u !!! 0%nat + 256 * u !!! 1%nat + 65536 * u !!! 2%nat + 16777216 * u !!! 3%nat
      = tv_usec now /\
    u !!! 4%nat + 256 * u !!! 5%nat + 65536 * u !!! 6%nat = tv_sec now mod 16777216 /\
    (forall i : nat, (i < 10)%nat -> 0 <= u !!! i < 256).
Proof.
  apply (X14_uuid_time_fields (busy_env 0) 4321 initial_state (replicate 16 0)).
  reflexivity.
Defined.

(** X15: byte 7 of the identifier is the bits 24 to 27 of the seconds with
    the marker 4 set into them: it lies between 4 and 15, its bit 2 is
    always set and its upper four bits are always clear. *)
Theorem X15_uuid_version_byte {W : Type} (h : handler W) (w : W) (st : vos_state) (pUuID : list Z) :
  length pUuID = 16%nat ->
  let now := clock_value (h _ ftime32_s w).1 in
  exists tr u st' w',
    run h (vos_getUuid st pUuID) w = (tr, Returned (u, st'), w') /\
    u !!! 7%nat = Z.lor ((tv_sec now / 16777216) mod 16) 4 /\
    4 <= u !!! 7%nat < 16 /\
    Z.testbit (u !!! 7%nat) 2 = true.
Proof.
  intros Hlen now.
  destruct (run_getUuid_layout h w st pUuID Hlen) as (tr & Hrun & _). fold now in Hrun.
  eexists _, _, _, _. split; [exact Hrun|].
  rewrite !uuid_head_lookup by lia. cbn [uuid_head lookup_total list_lookup_total].
  rewrite nibble_of_mask.
  destruct (version_nibble ((tv_sec now / 16777216) mod 16)) as (Hr & Hb & Hm).
  { apply Z.mod_pos_bound. lia. }
  unfold uint8. rewrite Hm. repeat split; (assumption || lia).
Qed.

Lemma X15_uuid_version_byte_witness :
  let now := clock_value (busy_env 0 _ ftime32_s 4321).1 in
  exists tr u st' w',
    run (busy_env 0) (vos_getUuid initial_state (replicate 16 0)) 4321
      = (tr, Returned (u, st'), w') /\
    u !!! 7%nat = Z.lor ((tv_sec now / 16777216) mod 16) 4 /\
    4 <= u !!! 7%nat < 16 /\
    Z.testbit (u !!! 7%nat) 2 = true.
Proof.
  apply (X15_uuid_version_byte (busy_env 0) 4321 initial_state (replicate 16 0)).
  reflexivity.
Defined.

(** X16: the last six bytes of the identifier are what the hardware
    address lookup stored: its six bytes when it stored six, and the
    bytes the caller's array held before when it stored none; the lookup's
    failure is logged as an error, exactly when its return code is not
    [VOS_NO_ERR], and the identifier is returned in either case. *)
Theorem X16_uuid_hardware_address {W : Type} (h : handler W) (w : W)
    (st : vos_state) (pUuID : list Z) :
  length pUuID = 16%nat ->
  let answer := (h _ vos_sockGetMAC (h _ ftime32_s w).2).1 in
  exists tr u st' w',
    run h (vos_getUuid st pUuID) w = (tr, Returned (u, st'), w') /\
    length u = 16%nat /\
    (length answer.2 = 6%nat -> drop 10 u = answer.2) /\
    (answer.2 = [] -> drop 10 u = drop 10 pUuID) /\
    (errors_logged tr = [] <-> answer.1 = VOS_NO_ERR).
Proof.
  intros Hlen answer.
  destruct (run_getUuid_layout h w st pUuID Hlen) as (tr & Hrun & Hlog). fold answer in Hrun, Hlog.
  eexists _, _, _, _. split; [exact Hrun|].
  split; [|split; [|split]].
  - rewrite length_inserts, length_app, length_drop, Hlen. reflexivity.
  - intros Hmac. destruct answer.2 as [|m0 [|m1 [|m2 [|m3 [|m4 [|m5 [|]]]]]]]; try discriminate Hmac.
    do 16 (destruct pUuID as [|? pUuID]; [discriminate Hlen|]).
    destruct pUuID; [reflexivity | discriminate Hlen].
  - intros ->. reflexivity.
  - rewrite Hlog. destruct answer.1; split; intros H; (reflexivity || discriminate H).
Qed.

Lemma X16_uuid_hardware_address_witness :
  let answer := (quiet_env _ vos_sockGetMAC (quiet_env _ ftime32_s tt).2).1 in
  exists tr u st' w',
    run quiet_env (vos_getUuid initial_state (replicate 16 9)) tt = (tr, Returned (u, st'), w') /\
    length u = 16%nat /\
    drop 10 u = answer.2 /\
    (errors_logged tr = [] <-> answer.1 = VOS_NO_ERR).
Proof.
  intros answer.
  destruct (X16_uuid_hardware_address quiet_env tt initial_state (replicate 16 9))
    as (tr & u & st' & w' & Hrun & Hlen & Hsix & _ & Hlog); [reflexivity|].
  exists tr, u, st', w'. split; [exact Hrun|]. split; [exact Hlen|].
  split; [apply Hsix; reflexivity | exact Hlog].
Defined.

(** Under a frozen clock and hardware address the identifiers of successive
    calls into equal arrays differ by their counter bytes only. *)
Lemma getUuid_calls_frozen {W : Type} (h : handler W) (now : Z * timeb32)
    (mac : VOS_ERR_T * list Z) (pUuID : list Z) :
  frozen h now mac -> length pUuID = 16%nat ->
  forall (n : nat) (st : vos_state) (w : W),
    in_uint16 (count st) ->
    exists tr st',
      run h (getUuid_calls st (replicate n pUuID)) w
      = (tr,
         Returned ((fun i : nat =>
                      list_inserts 10 mac.2
                        (uuid_head (clock_value now) (uint16 (count st + Z.of_nat i))
                         ++ drop 10 pUuID)) <$> seq 0 n,
                   st'),
         w).
Proof.
  intros Hfrozen Hlen. induction n as [|n IH]; intros st w Hc.
  - exists [], st. reflexivity.
  - destruct (run_getUuid_layout h w st pUuID Hlen) as (tr1 & Hrun1 & _).
    destruct (Hfrozen w) as [Hclock _]. rewrite Hclock in Hrun1. cbn [fst snd] in Hrun1.
    destruct (Hfrozen w) as [_ Hmac]. rewrite Hmac in Hrun1. cbn [fst snd] in Hrun1.
    set (st1 := mkState (vosThreadInitialised st) (uint16 (count st + 1))) in *.
    assert (Hc1 : in_uint16 (count st1)).
    { unfold in_uint16, st1, uint16. cbn. apply Z.mod_pos_bound. lia. }
    destruct (IH st1 w Hc1) as (tr2 & st2 & Hrun2).
    exists (tr1 ++ tr2)%list, st2.
    cbn [replicate getUuid_calls]. rewrite run_mbind, Hrun1.
    cbn -[uuid_head uint16 list_inserts drop seq fmap].
    rewrite run_mbind, Hrun2. cbn -[uuid_head uint16 list_inserts drop seq fmap].
    rewrite app_nil_r. change (seq 0 (S n)) with (0%nat :: seq 1 n). rewrite fmap_cons.
    assert (E0 : uint16 (count st + Z.of_nat 0) = count st).
    { unfold in_uint16 in Hc. unfold uint16. cbn [Z.of_nat].
      rewrite Z.add_0_r, Z.mod_small by lia. reflexivity. }
    rewrite E0, <- fmap_S_seq, <- list_fmap_compose.
    do 5 f_equal. apply list_fmap_ext. intros i x _.
    unfold compose, uint16. rewrite Zplus_mod_idemp_l.
    do 4 f_equal. lia.
Qed.

(** X17: the counter of the identifiers comes round after [2^16] calls:
    under a clock and a hardware address that do not change, the first
    and the last of 65537 successive identifiers written into equal arrays
    are the same, so that many identifiers are not pairwise different. *)
Theorem X17_uuid_repeats_after_65536_calls {W : Type} (h : handler W) (w : W)
    (now : Z * timeb32) (mac : VOS_ERR_T * list Z) (st : vos_state) (pUuID : list Z) :
  frozen h now mac -> length pUuID = 16%nat -> in_uint16 (count st) ->
  exists tr ids st' w',
    run h (getUuid_calls st (replicate (Z.to_nat 65537) pUuID)) w
      = (tr, Returned (ids, st'), w') /\
    (exists u, ids !! 0%nat = Some u /\ ids !! Z.to_nat 65536 = Some u) /\
    ~ NoDup ids.
Proof.
  intros Hfrozen Hlen Hc.
  destruct (getUuid_calls_frozen h now mac pUuID Hfrozen Hlen (Z.to_nat 65537) st w Hc)
    as (tr & st' & Hrun).
  eexists _, _, _, _. split; [exact Hrun|].
  assert (Hsame : exists u,
            ((fun i : nat =>
                list_inserts 10 mac.2
                  (uuid_head (clock_value now) (uint16 (count st + Z.of_nat i))
                   ++ drop 10 pUuID)) <$> seq 0 (Z.to_nat 65537)) !! 0%nat = Some u /\
            ((fun i : nat =>
                list_inserts 10 mac.2
                  (uuid_head (clock_value now) (uint16 (count st + Z.of_nat i))
                   ++ drop 10 pUuID)) <$> seq 0 (Z.to_nat 65537)) !! Z.to_nat 65536 = Some u).
  { eexists. rewrite !list_lookup_fmap, !lookup_seq_lt by lia. cbn [fmap option_fmap option_map].
    split; [reflexivity|]. do 4 f_equal.
    unfold uint16. rewrite !Nat.add_0_l, Z2Nat.id by lia. change (Z.of_nat 0) with 0.
    rewrite Z.add_0_r. replace (count st + 65536) with (count st + 1 * 65536) by lia.
    apply Z_mod_plus_full. }
  split; [exact Hsame|].
  destruct Hsame as (u & H0 & H1). intros Hnd.
  pose proof (proj1 (NoDup_alt _) Hnd _ _ _ H0 H1) as Heq. lia.
Qed.

Lemma X17_uuid_repeats_after_65536_calls_witness :
  exists tr ids st' w',
    run quiet_env (getUuid_calls initial_state (replicate (Z.to_nat 65537) (replicate 16 0))) tt
      = (tr, Returned (ids, st'), w') /\
    (exists u, ids !! 0%nat = Some u /\ ids !! Z.to_nat 65536 = Some u) /\
    ~ NoDup ids.
Proof.
  apply (X17_uuid_repeats_after_65536_calls quiet_env tt (0, mkTimeb 0 0)
           (VOS_NO_ERR, [0; 0; 0; 0; 0; 0]) initial_state (replicate 16 0)).
  - intros []. split; reflexivity.
  - reflexivity.
  - unfold in_uint16. simpl. lia.
Defined.

(** ** Creating and using mutexes *)

(** X18: at a non-null address [vos_mutexLocalCreate] either fails in the
    native call, returning [VOS_MUTEX_ERR] with the memory as it was, or
    returns [VOS_NO_ERR] having stored the new native handle and the
    sentinel tag there: the handle then passes the tag test, whatever the
    address held before (a deleted mutex included), and no other mutex
    and no semaphore is touched. *)
Theorem X18_mutexLocalCreate_stamps_the_tag {W : Type} (h : handler W) (w : W)
    (mem : vos_memory) (pMutex : Z) :
  pMutex <> NULL ->
  let hMutex := (h _ CreateMutex w).1 in
  exists err mem',
    (run h (vos_mutexLocalCreate mem pMutex) w).1.2 = Returned (err, mem') /\
    (hMutex = NULL -> err = VOS_MUTEX_ERR /\ mem' = mem) /\
    (hMutex <> NULL ->
     err = VOS_NO_ERR /\
     mutexes mem' !! pMutex = Some (mkMutex hMutex cMutextMagic) /\
     mutex_invalid mem' pMutex = mret false /\
     (forall q, q <> pMutex -> mutexes mem' !! q = mutexes mem !! q) /\
     semas mem' = semas mem).
Proof.
  intros Hn hMutex. unfold vos_mutexLocalCreate.
  destruct (Z.eqb_spec pMutex NULL) as [|_]; [contradiction|].
  rewrite run_call_outcome. fold hMutex.
  destruct (Z.eqb_spec hMutex NULL) as [E|E].
  - eexists _, _. split; [reflexivity|]. split; [intros _; split; reflexivity | contradiction].
  - eexists _, _. split; [reflexivity|]. split; [contradiction|]. intros _.
    assert (Hl : mutexes (mkMemory (<[pMutex := mkMutex hMutex cMutextMagic]> (mutexes mem))
                            (semas mem)) !! pMutex = Some (mkMutex hMutex cMutextMagic)).
    { cbn. apply lookup_insert_eq. }
    split; [reflexivity|]. split; [exact Hl|].
    split; [apply (mutex_invalid_match _ _ _ Hn Hl); reflexivity|].
    split; [|reflexivity]. intros q Hq. cbn. apply lookup_insert_ne. congruence.
Qed.

Lemma X18_mutexLocalCreate_stamps_the_tag_witness :
  exists err mem',
    (run quiet_env (vos_mutexLocalCreate (mkMemory {[ 64 := mkMutex 7 0 ]} ∅) 64) tt).1.2
      = Returned (err, mem') /\
    err = VOS_NO_ERR /\
    mutexes mem' !! 64 = Some (mkMutex 1 cMutextMagic) /\
    mutex_invalid mem' 64 = mret false.
Proof.
  destruct (X18_mutexLocalCreate_stamps_the_tag quiet_env tt
              (mkMemory {[ 64 := mkMutex 7 0 ]} ∅) 64)
    as (err & mem' & Hrun & _ & Hok); [unfold NULL; lia|].
  exists err, mem'. split; [exact Hrun|].
  destruct Hok as (He & Hl & Hv & _); [unfold NULL; cbn; lia|].
  repeat split; assumption.
Defined.

(** X19: [vos_mutexCreate] allocates only when the caller's handle
    variable holds [NULL]; a failed allocation returns [VOS_MEM_ERR]
    before any native mutex is created; otherwise the call goes on as
    [vos_mutexLocalCreate] at the address in the variable, which stays in
    the variable also when the native creation fails. *)
Theorem X19_mutexCreate_allocates_when_null {W : Type} (h : handler W) (w : W)
    (sizeof_VOS_MUTEX : Z) (mem : vos_memory) (p0 : Z) :
  let fresh := h _ (vos_memAlloc sizeof_VOS_MUTEX) w in
  let p := if p0 =? NULL then fresh.1 else p0 in
  let w1 := if p0 =? NULL then fresh.2 else w in
  let r := run h (vos_mutexCreate sizeof_VOS_MUTEX mem (Some p0)) w in
  r.1.2 = (if p =? NULL then Returned (VOS_MEM_ERR, Some NULL, mem)
           else match (run h (vos_mutexLocalCreate mem p) w1).1.2 with
                | Returned (err, mem') => Returned (err, Some p, mem')
                | Crashed f => Crashed f
                end) /\
  allocations r.1.1 = (if p0 =? NULL then [sizeof_VOS_MUTEX] else []) /\
  (p = NULL -> native_calls r.1.1 = [EvCall (vos_memAlloc sizeof_VOS_MUTEX) fresh.1]).
Proof.
  intros fresh p w1 r. unfold r, vos_mutexCreate, vos_mutexLocalCreate.
  destruct (Z.eqb_spec p0 NULL) as [E0|E0].
  - rewrite run_mbind, run_call. fold fresh. subst p w1. cbn [fst snd].
    destruct (Z.eqb_spec fresh.1 NULL) as [E|E].
    + rewrite E. cbn. split; [reflexivity|]. split; [reflexivity|]. intros _. reflexivity.
    + cbn. destruct (h _ CreateMutex fresh.2) as [hM w2]. cbn.
      destruct (hM =? NULL); cbn; (split; [reflexivity|]); (split; [reflexivity|]);
        intros Hp; contradiction.
  - subst p w1. cbn. destruct (Z.eqb_spec p0 NULL) as [|_]; [contradiction|].
    cbn. destruct (h _ CreateMutex w) as [hM w2]. cbn.
    destruct (hM =? NULL); cbn; (split; [reflexivity|]); (split; [reflexivity|]);
      intros Hp; contradiction.
Qed.

Lemma X19_mutexCreate_allocates_when_null_witness :
  let r := run exhausted_env (vos_mutexCreate 16 (mkMemory ∅ ∅) (Some NULL)) tt in
  r.1.2 = Returned (VOS_MEM_ERR, Some NULL, mkMemory ∅ ∅) /\
  allocations r.1.1 = [16] /\
  native_calls r.1.1 = [EvCall (vos_memAlloc 16) NULL].
Proof.
  intros r.
  destruct (X19_mutexCreate_allocates_when_null exhausted_env tt 16 (mkMemory ∅ ∅) NULL)
    as (Ho & Ha & Hn).
  split; [exact Ho|]. split; [exact Ha|]. apply Hn. reflexivity.
Defined.

(** X20: on a handle that passes the tag test, [vos_mutexLock] waits on
    the stored native handle without a time-out and [vos_mutexTryLock]
    with the time-out 0; both return [VOS_NO_ERR] exactly when the wait is
    granted, but for a wait that timed out or found the mutex abandoned
    lock returns [VOS_MUTEX_ERR] and tryLock [VOS_INUSE_ERR], the latter
    without a log. *)
Theorem X20_mutex_lock_and_tryLock {W : Type} (h : handler W) (w : W)
    (mem : vos_memory) (pMutex : Z) (m : VOS_MUTEX) :
  pMutex <> NULL -> mutexes mem !! pMutex = Some m -> magicNo m = cMutextMagic ->
  let locked := run h (vos_mutexLock mem pMutex) w in
  let tried := run h (vos_mutexTryLock mem pMutex) w in
  let r := (h _ (WaitForSingleObject (mutexId m) INFINITE) w).1 in
  let r0 := (h _ (WaitForSingleObject (mutexId m) (Milliseconds 0)) w).1 in
  locked.1.2 = Returned (lock_code r) /\
  waits locked.1.1 = [(mutexId m, INFINITE)] /\
  tried.1.2 = Returned (tryLock_code r0) /\
  waits tried.1.1 = [(mutexId m, Milliseconds 0)] /\
  (lock_code r = VOS_NO_ERR <-> r = WAIT_OBJECT_0) /\
  (tryLock_code r0 = VOS_NO_ERR <-> r0 = WAIT_OBJECT_0) /\
  (r0 = WAIT_TIMEOUT \/ r0 = WAIT_ABANDONED ->
   tryLock_code r0 = VOS_INUSE_ERR /\ lock_code r0 = VOS_MUTEX_ERR /\ errors_logged tried.1.1 = []).
Proof.
  intros Hn Hm Htag locked tried r r0.
  unfold locked, tried, vos_mutexLock, vos_mutexTryLock.
  rewrite (mutex_invalid_match mem pMutex m) by assumption.
  unfold load. destruct (Z.eqb_spec pMutex NULL) as [|_]; [contradiction|]. rewrite Hm.
  cbn -[lock_code tryLock_code]. fold r r0.
  destruct (h _ (WaitForSingleObject (mutexId m) INFINITE) w) as [a w1] eqn:Ea.
  destruct (h _ (WaitForSingleObject (mutexId m) (Milliseconds 0)) w) as [b w2] eqn:Eb.
  subst r r0. cbn [fst snd].
  split; [|split; [|split; [|split; [|split; [|split]]]]].
  - destruct a; cbn; try (destruct (h _ GetLastError w1) as [e w3]); reflexivity.
  - destruct a; cbn; try (destruct (h _ GetLastError w1) as [e w3]); reflexivity.
  - destruct b; cbn; try (destruct (h _ GetLastError w2) as [e w3]); reflexivity.
  - destruct b; cbn; try (destruct (h _ GetLastError w2) as [e w3]); reflexivity.
  - destruct a; cbn; split; intros H; (reflexivity || discriminate H).
  - destruct b; cbn; split; intros H; (reflexivity || discriminate H).
  - intros [-> | ->]; cbn; repeat split; reflexivity.
Qed.

Lemma X20_mutex_lock_and_tryLock_witness :
  let mem := mkMemory {[ 64 := mkMutex 5 cMutextMagic ]} ∅ in
  let locked := run contended_env (vos_mutexLock mem 64) tt in
  let tried := run contended_env (vos_mutexTryLock mem 64) tt in
  locked.1.2 = Returned VOS_MUTEX_ERR /\
  waits locked.1.1 = [(5, INFINITE)] /\
  tried.1.2 = Returned VOS_INUSE_ERR /\
  waits tried.1.1 = [(5, Milliseconds 0)] /\
  errors_logged tried.1.1 = [].
Proof.
  intros mem locked tried.
  destruct (X20_mutex_lock_and_tryLock contended_env tt mem 64 (mkMutex 5 cMutextMagic))
    as (Hl & Hlw & Ht & Htw & _ & _ & Hin); [unfold NULL; lia | reflexivity | reflexivity |].
  destruct Hin as (_ & _ & Hlog); [left; reflexivity|].
  repeat split; assumption.
Defined.

(** ** Taking a semaphore *)

(** X21: [vos_semaTake] never returns [VOS_NOINIT_ERR], whatever its
    arguments and the environment.  On a valid handle it waits on the
    stored native handle for the time-out in whole milliseconds, rounded
    down, so that a time-out below 1000 microseconds does not wait; it
    returns [VOS_NO_ERR] exactly when the wait is granted and
    [VOS_SEMA_ERR] otherwise, and logs an error exactly when the wait
    failed. *)
Theorem X21_semaTake_outcomes {W : Type} (h : handler W) (w : W)
    (mem : vos_memory) (sema timeout : Z) :
  (run h (vos_semaTake mem sema timeout) w).1.2 <> Returned VOS_NOINIT_ERR /\
  (forall s : VOS_SEMA,
     sema <> NULL -> semas mem !! sema = Some s ->
     let taken := run h (vos_semaTake mem sema timeout) w in
     let r := (h _ (WaitForSingleObject (semaphore s) (Milliseconds (timeout / 1000))) w).1 in
     taken.1.2 = Returned (match r with WAIT_OBJECT_0 => VOS_NO_ERR | _ => VOS_SEMA_ERR end) /\
     waits taken.1.1 = [(semaphore s, Milliseconds (timeout / 1000))] /\
     (errors_logged taken.1.1 <> [] <-> r = WAIT_FAILED) /\
     (0 <= timeout < 1000 -> waits taken.1.1 = [(semaphore s, Milliseconds 0)])).
Proof.
  assert (Hvalid : forall s : VOS_SEMA,
     sema <> NULL -> semas mem !! sema = Some s ->
     let taken := run h (vos_semaTake mem sema timeout) w in
     let r := (h _ (WaitForSingleObject (semaphore s) (Milliseconds (timeout / 1000))) w).1 in
     taken.1.2 = Returned (match r with WAIT_OBJECT_0 => VOS_NO_ERR | _ => VOS_SEMA_ERR end) /\
     waits taken.1.1 = [(semaphore s, Milliseconds (timeout / 1000))] /\
     (errors_logged taken.1.1 <> [] <-> r = WAIT_FAILED)).
  { intros s Hn Hs taken r. unfold taken, vos_semaTake, load, USECS_PER_MSEC.
    destruct (Z.eqb_spec sema NULL) as [|_]; [contradiction|]. rewrite Hs. cbn. fold r.
    destruct (h _ (WaitForSingleObject (semaphore s) (Milliseconds (timeout / 1000))) w)
      as [a w1] eqn:Ea.
    subst r. cbn [fst snd].
    destruct a; cbn; try (destruct (h _ GetLastError w1) as [e w3]; cbn);
      (split; [reflexivity|]); (split; [reflexivity|]);
      split; intros H; try reflexivity; try discriminate H; try discriminate;
      try (exfalso; apply H; reflexivity). }
  split.
  - destruct (Z.eqb_spec sema NULL) as [->|Hn].
    + discriminate.
    + destruct (semas mem !! sema) as [s|] eqn:Hs.
      * destruct (Hvalid s Hn eq_refl) as (Ho & _). cbv zeta in Ho. rewrite Ho.
        destruct (h _ _ w).1; discriminate.
      * unfold vos_semaTake, load. destruct (Z.eqb_spec sema NULL) as [|_]; [contradiction|].
        rewrite Hs. discriminate.
  - intros s Hn Hs taken r. destruct (Hvalid s Hn Hs) as (Ho & Hw & Hl).
    split; [exact Ho|]. split; [exact Hw|]. split; [exact Hl|].
    intros Ht. cbv zeta in Hw. unfold taken. rewrite Hw, Z.div_small by lia. reflexivity.
Qed.

Lemma X21_semaTake_outcomes_witness :
  let mem := mkMemory ∅ {[ 64 := mkSema 5 ]} in
  let taken := run contended_env (vos_semaTake mem 64 999) tt in
  taken.1.2 = Returned VOS_SEMA_ERR /\
  waits taken.1.1 = [(5, Milliseconds 0)].
Proof.
  intros mem taken.
  destruct (X21_semaTake_outcomes contended_env tt mem 64 999) as [_ Hv].
  destruct (Hv (mkSema 5)) as (Ho & _ & _ & Hw); [unfold NULL; lia | reflexivity |].
  split; [exact Ho | apply Hw; lia].
Defined.
